(** * Differential-Equation-Explorer: the numerical core of both components

    A shallow embedding of the script blocks of
    [src/components/EquationSolver.vue] (the interactive solver) and of the
    slope-field visualisation component, followed by the properties of the
    equation compiler, the Runge-Kutta integrators, the field sampling and
    the curve bookkeeping.

    JavaScript numbers are IEEE 754 binary64 values: they are modelled by the
    primitive [float] type, whose operations are the processor's.  Strings are
    modelled by [string], read as the UTF-8 encoding of the JavaScript
    string. *)

From Stdlib Require Import Floats List Bool String Ascii Arith Lia ZArith DecimalString Sorted.
Import ListNotations.

Set Warnings "-inexact-float".

Open Scope string_scope.
Open Scope float_scope.

(** ** JavaScript numbers *)

(** The global [isFinite] on a number: neither NaN nor an infinity. *)
Definition isFinite (v : float) : bool := is_finite v.

(** [Math.abs]. *)
Definition Math_abs (v : float) : float := abs v.

(** A point [[x, y]] of a trajectory. *)
Abbreviation point := (float * float)%type (only parsing).

(** ** Completions: a call either returns or throws *)

(** What a [catch] clause receives: an [Error] object with its [message], or
    any other thrown value. *)
Inductive thrown : Type :=
| ErrorObject (message : string)
| OtherValue.

Inductive completion (A : Type) : Type :=
| Normal (value : A)
| Throw (error : thrown).

Arguments Normal {A} value.
Arguments Throw {A} error.

Definition bind {A B : Type} (c : completion A) (k : A -> completion B)
  : completion B :=
  match c with
  | Normal a => k a
  | Throw e => Throw e
  end.

Notation "'let*' x ':=' c 'in' k" := (bind c (fun x => k))
  (at level 10, x name, c at level 100, k at level 200).

(** ** The external expression evaluator (mathjs [evaluate])

    [evaluate(expr, {x, y})] is an external collaborator: given the expression
    text and the values bound to [x] and [y] it returns a number or throws
    (the contract of the external interface; results of other JavaScript
    types are outside the model).  Every property below is stated for an
    arbitrary evaluator. *)
Definition evaluator : Type := string -> float -> float -> completion float.

(** One invocation of the evaluator, as recorded in the trace of a query. *)
Definition call : Type := (string * float * float)%type.

(** A slope query: the evaluator invocations it made and how it completed. *)
Definition query : Type := (list call * completion float)%type.

Definition calls (q : query) : list call := fst q.
Definition outcome (q : query) : completion float := snd q.

(** ** Strings *)

Definition code (c : ascii) : nat := nat_of_ascii c.

(** One-byte members of the regular-expression class [\s]:
    TAB, LF, VT, FF, CR and SPACE. *)
Definition space1 (c : ascii) : bool :=
  ((9 <=? code c) && (code c <=? 13))%nat || (code c =? 32)%nat.

(** U+00A0, encoded on two bytes. *)
Definition space2 (c1 c2 : ascii) : bool :=
  ((code c1 =? 194) && (code c2 =? 160))%nat.

(** The three-byte members of [\s]: U+1680, U+2000..U+200A, U+2028, U+2029,
    U+202F, U+205F, U+3000 and U+FEFF. *)
Definition space3 (c1 c2 c3 : ascii) : bool :=
  let a := code c1 in
  let b := code c2 in
  let c := code c3 in
  ((a =? 225) && (b =? 154) && (c =? 128)
   || (a =? 226) && (b =? 128)
      && ((128 <=? c) && (c <=? 138) || (c =? 168) || (c =? 169) || (c =? 175))
   || (a =? 226) && (b =? 129) && (c =? 159)
   || (a =? 227) && (b =? 128) && (c =? 128)
   || (a =? 239) && (b =? 187) && (c =? 191))%nat.

(** The longest match of [\s*] is consumed; what follows it is returned. *)
Fixpoint skip_spaces (s : string) : string :=
  match s with
  | EmptyString => s
  | String c1 r1 =>
      if space1 c1 then skip_spaces r1
      else
        match r1 with
        | EmptyString => s
        | String c2 r2 =>
            if space2 c1 c2 then skip_spaces r2
            else
              match r2 with
              | EmptyString => s
              | String c3 r3 =>
                  if space3 c1 c2 c3 then skip_spaces r3 else s
              end
        end
  end.

(** [/dy\/dx\s*=\s*/] anchored at the head of [s]: the text after the match. *)
Definition match_marker (s : string) : option string :=
  match s with
  | String "d" (String "y" (String "/" (String "d" (String "x" r)))) =>
      match skip_spaces r with
      | String "=" r' => Some (skip_spaces r')
      | _ => None
      end
  | _ => None
  end.

(** [s.replace(/dy\/dx\s*=\s*/, '')]: the leftmost match is removed, the
    rest of the string is kept. *)
Fixpoint strip_marker (s : string) : string :=
  match match_marker s with
  | Some rest => rest
  | None =>
      match s with
      | EmptyString => EmptyString
      | String c r => String c (strip_marker r)
      end
  end.

(** [s.replace(/\^/g, '**')]. *)
Fixpoint caret_to_power (s : string) : string :=
  match s with
  | EmptyString => EmptyString
  | String c r =>
      if Ascii.eqb c "^" then String "*" (String "*" (caret_to_power r))
      else String c (caret_to_power r)
  end.

(** The expression text both compilers hand to the evaluator. *)
Definition processedEq (eqStr : string) : string :=
  caret_to_power (strip_marker eqStr).

(** [s.includes(pat)]. *)
Fixpoint includes (s pat : string) : bool :=
  prefix pat s
  || match s with
     | EmptyString => false
     | String _ r => includes r pat
     end.

(** [!s.trim()]: the string is empty once its white space is trimmed. *)
Definition blank (s : string) : bool :=
  match skip_spaces s with
  | EmptyString => true
  | String _ _ => false
  end.

(** ** A reference evaluator

    A small evaluator that meets the contract of the external interface on
    the arithmetic fragment: the variables [x] and [y], unsigned integer
    literals, [+ - * /], unary minus and parentheses.  Anything else is a
    syntax error and throws.  It instantiates the evaluator-generic
    statements on concrete equations. *)
Module ReferenceEvaluator.

Inductive token : Type :=
| TNum (v : float)
| TVarX
| TVarY
| TPlus
| TMinus
| TTimes
| TDivide
| TLParen
| TRParen.

Definition syntaxError {A : Type} (message : string) : completion A :=
  Throw (ErrorObject message).

(** The value of a decimal digit. *)
Definition digit (c : ascii) : option float :=
  if ((48 <=? code c) && (code c <=? 57))%nat
  then Some (Nat.iter (code c - 48) (fun v => v + 1) 0)
  else None.

Definition symbol (c : ascii) : completion (list token) :=
  match c with
  | "x"%char => Normal [TVarX]
  | "y"%char => Normal [TVarY]
  | "+"%char => Normal [TPlus]
  | "-"%char => Normal [TMinus]
  | "*"%char => Normal [TTimes]
  | "/"%char => Normal [TDivide]
  | "("%char => Normal [TLParen]
  | ")"%char => Normal [TRParen]
  | " "%char => Normal []
  | _ => syntaxError "Syntax error in part of the expression"
  end.

Definition flush (num : option float) (ts : list token) : list token :=
  match num with
  | Some v => TNum v :: ts
  | None => ts
  end.

(** [num] is the integer literal being read, if any. *)
Fixpoint lex (s : string) (num : option float) : completion (list token) :=
  match s with
  | EmptyString => Normal (flush num [])
  | String c r =>
      match digit c with
      | Some d =>
          lex r (Some (match num with
                       | Some v => v * 10 + d
                       | None => d
                       end))
      | None =>
          let* ts := symbol c in
          let* rest := lex r None in
          Normal (flush num (ts ++ rest))
      end
  end.

Section Parser.
Variables x y : float.

Definition parsed : Type := (float * list token)%type.

(** Recursive descent; [n] bounds the depth of the descent. *)
Fixpoint parse_sum (n : nat) (ts : list token) : completion parsed :=
  match n with
  | O => syntaxError "Expression too deep"
  | S n' =>
      let* p := parse_product n' ts in
      sum_tail n' (fst p) (snd p)
  end
with sum_tail (n : nat) (acc : float) (ts : list token) : completion parsed :=
  match n with
  | O => syntaxError "Expression too deep"
  | S n' =>
      match ts with
      | TPlus :: r =>
          let* p := parse_product n' r in
          sum_tail n' (acc + fst p) (snd p)
      | TMinus :: r =>
          let* p := parse_product n' r in
          sum_tail n' (acc - fst p) (snd p)
      | _ => Normal (acc, ts)
      end
  end
with parse_product (n : nat) (ts : list token) : completion parsed :=
  match n with
  | O => syntaxError "Expression too deep"
  | S n' =>
      let* p := parse_atom n' ts in
      product_tail n' (fst p) (snd p)
  end
with product_tail (n : nat) (acc : float) (ts : list token) : completion parsed :=
  match n with
  | O => syntaxError "Expression too deep"
  | S n' =>
      match ts with
      | TTimes :: r =>
          let* p := parse_atom n' r in
          product_tail n' (acc * fst p) (snd p)
      | TDivide :: r =>
          let* p := parse_atom n' r in
          product_tail n' (acc / fst p) (snd p)
      | _ => Normal (acc, ts)
      end
  end
with parse_atom (n : nat) (ts : list token) : completion parsed :=
  match n with
  | O => syntaxError "Expression too deep"
  | S n' =>
      match ts with
      | TNum v :: r => Normal (v, r)
      | TVarX :: r => Normal (x, r)
      | TVarY :: r => Normal (y, r)
      | TMinus :: r =>
          let* p := parse_atom n' r in
          Normal (- fst p, snd p)
      | TLParen :: r =>
          let* p := parse_sum n' r in
          match snd p with
          | TRParen :: r' => Normal (fst p, r')
          | _ => syntaxError "Parenthesis ) expected"
          end
      | [] => syntaxError "Unexpected end of expression"
      | _ => syntaxError "Value expected"
      end
  end.
End Parser.

Definition evaluate : evaluator :=
  fun expr x y =>
    let* ts := lex expr None in
    let* p := parse_sum x y (5 * (List.length ts + 1)) ts in
    match snd p with
    | [] => Normal (fst p)
    | _ => syntaxError "Unexpected operator"
    end.

End ReferenceEvaluator.

(** ** The interactive solver ([src/components/EquationSolver.vue]) *)
Module Solver.

Record SolutionStep : Type := mkStep {
  step : string;
  description : string;
  result : option string
}.

(** The reactive variables of the component. *)
Record state : Type := mkState {
  equation : string;
  initialX : float;
  initialY : float;
  xEnd : float;
  stepSize : float;
  solution : list point;
  solutionSteps : list SolutionStep;
  isLoading : bool
}.

Definition set_solution (v : list point) (st : state) : state :=
  mkState (equation st) (initialX st) (initialY st) (xEnd st) (stepSize st)
          v (solutionSteps st) (isLoading st).

Definition set_solutionSteps (v : list SolutionStep) (st : state) : state :=
  mkState (equation st) (initialX st) (initialY st) (xEnd st) (stepSize st)
          (solution st) v (isLoading st).

Definition set_isLoading (v : bool) (st : state) : state :=
  mkState (equation st) (initialX st) (initialY st) (xEnd st) (stepSize st)
          (solution st) (solutionSteps st) v.

(** One pass through the body of the [while] loop of [rungeKutta4]; a throw
    of [f] leaves the body at once. *)
Definition rk4_body (f : float -> float -> completion float)
           (h x y : float) : completion point :=
  let* s1 := f x y in
  let k1 := h * s1 in
  let* s2 := f (x + h / 2) (y + k1 / 2) in
  let k2 := h * s2 in
  let* s3 := f (x + h / 2) (y + k2 / 2) in
  let k3 := h * s3 in
  let* s4 := f (x + h) (y + k3) in
  let k4 := h * s4 in
  Normal (x + h, y + (k1 + 2 * k2 + 2 * k3 + k4) / 6).

(** [while (x < xEnd) { ... points.push([x, y]) }].  The loop has no bound
    of its own: [fuel] counts the evaluations of its condition, and [None]
    says that [fuel] of them did not reach the exit. *)
Fixpoint rk4_while (fuel : nat) (f : float -> float -> completion float)
         (h xEnd x y : float) (points : list point)
  : option (completion (list point)) :=
  match fuel with
  | O => None
  | S fuel' =>
      if x <? xEnd then
        match rk4_body f h x y with
        | Normal p => rk4_while fuel' f h xEnd (fst p) (snd p) (points ++ [p])
        | Throw e => Some (Throw e)
        end
      else Some (Normal points)
  end.

Definition rungeKutta4 (fuel : nat) (f : float -> float -> completion float)
           (x0 y0 h xEnd : float) : option (completion (list point)) :=
  rk4_while fuel f h xEnd x0 y0 [(x0, y0)].

Section WithEvaluator.
Variable evaluate : evaluator.

(** Number-to-string conversion of template literals. *)
Variable toString : float -> string.

(** The closure returned by [parseEquation]: every query invokes the
    evaluator and completes as the evaluator does.  The enclosing
    [try]/[catch] only covers the two [replace] calls, which do not
    throw. *)
Definition parseEquation (eqStr : string) : float -> float -> query :=
  let expr := processedEq eqStr in
  fun x y => ([(expr, x, y)], evaluate expr x y).

Definition lengthToString (n : nat) : string :=
  NilEmpty.string_of_uint (Nat.to_uint n).

Definition errorStep (error : thrown) : SolutionStep :=
  mkStep "错误" "求解失败"
         (Some match error with
               | ErrorObject message => message
               | OtherValue => "未知错误"
               end).

(** The state after [solveEquation()]; [None]: the integration loop does not
    exit within [fuel] tests.  The [console.error] of the [catch] clause
    leaves the state alone and is left out. *)
Definition solveEquation (fuel : nat) (st : state) : option state :=
  if blank (equation st) then Some st
  else
    let st := set_isLoading true st in
    let st := set_solutionSteps [] st in
    (* try *)
    let st :=
      set_solutionSteps
        [ mkStep "1" "解析微分方程" (Some ("原方程: " ++ equation st));
          mkStep "2" "设置初始条件"
                 (Some ("初始条件: y(" ++ toString (initialX st) ++ ") = "
                        ++ toString (initialY st)));
          mkStep "3" "使用四阶Runge-Kutta数值方法求解"
                 (Some ("步长: h = " ++ toString (stepSize st)
                        ++ ", 求解区间: [" ++ toString (initialX st)
                        ++ ", " ++ toString (xEnd st) ++ "]")) ]
        st in
    let f := fun x y => outcome (parseEquation (equation st) x y) in
    match rungeKutta4 fuel f (initialX st) (initialY st) (stepSize st) (xEnd st) with
    | None => None
    | Some (Normal points) =>
        let st := set_solution points st in
        let st :=
          set_solutionSteps
            (solutionSteps st
             ++ [ mkStep "4" "数值解计算完成"
                         (Some ("共计算了 " ++ lengthToString (List.length points)
                                ++ " 个数据点")) ])
            st in
        (* finally *)
        Some (set_isLoading false st)
    | Some (Throw error) =>
        (* catch *)
        let st := set_solutionSteps [errorStep error] st in
        (* finally *)
        Some (set_isLoading false st)
    end.

End WithEvaluator.

(** The component as mounted. *)
Definition initial : state :=
  mkState "dy/dx = x + y" 0 1 2 0.1 [] [] false.

(** An entry of [presetEquations]. *)
Record preset : Type := mkPreset {
  preset_name : string;
  preset_eq : string;
  preset_x0 : float;
  preset_y0 : float
}.

Definition presetEquations : list preset :=
  [ mkPreset "线性方程" "dy/dx = x + y" 0 1;
    mkPreset "分离变量" "dy/dx = x*y" 0 1;
    mkPreset "齐次方程" "dy/dx = y/x" 1 1;
    mkPreset "Logistic增长" "dy/dx = y*(1-y)" 0 0.1 ].

Definition loadPreset (p : preset) (st : state) : state :=
  mkState (preset_eq p) (preset_x0 p) (preset_y0 p) (xEnd st) (stepSize st)
          (solution st) (solutionSteps st) (isLoading st).

(** What the user can do with the component: type into its five inputs
    (the [v-model] bindings), load a preset, press the solve button. *)
Inductive action : Type :=
| Edit (equation : string) (initialX initialY xEnd stepSize : float)
| LoadPreset (p : preset)
| Solve (fuel : nat).

Definition perform (evaluate : evaluator) (toString : float -> string)
           (a : action) (st : state) : option state :=
  match a with
  | Edit e x y xe h =>
      Some (mkState e x y xe h (solution st) (solutionSteps st) (isLoading st))
  | LoadPreset p => Some (loadPreset p st)
  | Solve fuel => solveEquation evaluate toString fuel st
  end.

(** The state after a sequence of actions; [None] when a solve does not
    return. *)
Fixpoint session (evaluate : evaluator) (toString : float -> string)
         (actions : list action) (st : state) : option state :=
  match actions with
  | [] => Some st
  | a :: rest =>
      match perform evaluate toString a st with
      | Some st' => session evaluate toString rest st'
      | None => None
      end
  end.

End Solver.

(** ** The slope-field visualisation *)
Module Visualizer.

Record curve : Type := mkCurve {
  id : nat;
  points : list point;
  color : string
}.

(** The reactive variables of the component and its curve counter. *)
Record state : Type := mkState {
  equation : string;
  xRange : float * float;
  yRange : float * float;
  gridDensity : float;
  solutionCurves : list curve;
  curveIdCounter : nat
}.

(** A segment of the slope field: the grid point and the slope drawn there. *)
Abbreviation triple := (float * float * float)%type (only parsing).

Definition maxSteps : nat := 200.

Section WithEvaluator.
Variable evaluate : evaluator.

(** The closure returned by [parseEquation].  The outer [catch], which
    would return the zero function, only covers the two [replace] calls,
    which do not throw. *)
Definition parseEquation (eqStr : string) : float -> float -> query :=
  let expr := processedEq eqStr in
  fun x y =>
    if (Math_abs y <? 1e-10) && includes expr "/y" then ([], Normal 0)
    else if (Math_abs x <? 1e-10) && includes expr "/x" then ([], Normal 0)
    else
      ([(expr, x, y)],
       match evaluate expr x y with
       | Normal result => Normal (if isFinite result then result else 0)
       | Throw _ => Normal 0
       end).

(** The number a query of the closure returns. *)
Definition compiled (eqStr : string) (x y : float) : float :=
  match outcome (parseEquation eqStr x y) with
  | Normal v => v
  | Throw _ => 0
  end.
End WithEvaluator.

Section WithView.
Variable st : state.

(** The first test of the loop body of [generateSolutionCurve]
    ([a > b] is [b < a]). *)
Definition outOfRange (x y : float) : bool :=
  (x <? fst (xRange st)) || (snd (xRange st) <? x)
  || (y <? fst (yRange st)) || (snd (yRange st) <? y).

(** [for (let i = 0; i < maxSteps; i++) { ... }], with [n] the number of
    iterations still allowed; each [break] returns the points pushed so
    far. *)
Fixpoint curve_loop (n : nat) (f : float -> float -> float)
         (h x y : float) (pts : list point) : list point :=
  match n with
  | O => pts
  | S n' =>
      if outOfRange x y then pts
      else
        let k1 := h * f x y in
        let k2 := h * f (x + h / 2) (y + k1 / 2) in
        let k3 := h * f (x + h / 2) (y + k2 / 2) in
        let k4 := h * f (x + h) (y + k3) in
        if negb (isFinite k1) || negb (isFinite k2)
           || negb (isFinite k3) || negb (isFinite k4) then pts
        else
          let y' := y + (k1 + 2 * k2 + 2 * k3 + k4) / 6 in
          let x' := x + h in
          if negb (isFinite x') || negb (isFinite y') then pts
          else curve_loop n' f h x' y' (pts ++ [(x', y')])
  end.

Definition generateSolutionCurve (f : float -> float -> float)
           (x0 y0 : float) (direction : float) : list point :=
  let h := 0.05 * direction in
  curve_loop maxSteps f h x0 y0 [(x0, y0)].

(** The inner loop of the field sampling in [drawSlopeField]:
    [for (let y = yRange[0]; y <= yRange[1]; y += stepY)].  A segment is
    appended for the grid point unless its slope is not finite.  The
    loops are bounded by their conditions only: [fuel] counts the tests,
    and [None] says that [fuel] of them did not reach the exit. *)
Fixpoint field_column (fuel : nat) (f : float -> float -> float)
         (stepY x y : float) (segments : list triple)
  : option (list triple) :=
  match fuel with
  | O => None
  | S fuel' =>
      if y <=? snd (yRange st) then
        let slope := f x y in
        if negb (isFinite slope)
        then field_column fuel' f stepY x (y + stepY) segments
        else field_column fuel' f stepY x (y + stepY)
                          (segments ++ [(x, y, slope)])
      else Some segments
  end.

(** The outer loop:
    [for (let x = xRange[0]; x <= xRange[1]; x += stepX)]. *)
Fixpoint field_rows (fuel inner : nat) (f : float -> float -> float)
         (stepX stepY x : float) (segments : list triple)
  : option (list triple) :=
  match fuel with
  | O => None
  | S fuel' =>
      if x <=? snd (xRange st) then
        match field_column inner f stepY x (fst (yRange st)) segments with
        | None => None
        | Some segments' =>
            field_rows fuel' inner f stepX stepY (x + stepX) segments'
        end
      else Some segments
  end.

Definition stepX : float :=
  (snd (xRange st) - fst (xRange st)) / gridDensity st.
Definition stepY : float :=
  (snd (yRange st) - fst (yRange st)) / gridDensity st.

Section Sampling.
Variable evaluate : evaluator.

(** The slope field drawn by [drawSlopeField], as the sequence of
    (x, y, slope) for which a segment is appended, in drawing order.
    The placement of the segment on the canvas ([Math.atan] and the
    d3 scales) belongs to the rendering and is left out. *)
Definition drawSlopeField (fuel : nat) : option (list triple) :=
  let f := compiled evaluate (equation st) in
  field_rows fuel fuel f stepX stepY (fst (xRange st)) [].

Definition colors : list string :=
  ["#e74c3c"; "#2ecc71"; "#f39c12"; "#9b59b6"; "#1abc9c"; "#f1c40f"].

(** The constant [allPoints] of [addSolutionCurve]
    ([arr.slice(0, -1)] is [removelast arr]). *)
Definition allPoints (x0 y0 : float) : list point :=
  let f := compiled evaluate (equation st) in
  let forwardPoints := generateSolutionCurve f x0 y0 1 in
  let backwardPoints := generateSolutionCurve f x0 y0 (-1) in
  removelast (rev backwardPoints) ++ forwardPoints.

(** The state after [addSolutionCurve(x0, y0)]; the redrawing that ends it
    belongs to the rendering. *)
Definition addSolutionCurve (x0 y0 : float) : state :=
  let allPoints := allPoints x0 y0 in
  let color :=
    nth (List.length (solutionCurves st) mod List.length colors) colors "" in
  mkState (equation st) (xRange st) (yRange st) (gridDensity st)
          (solutionCurves st
           ++ [mkCurve (curveIdCounter st) allPoints color])
          (S (curveIdCounter st)).
End Sampling.

(** [clearSolutionCurves()] and [removeCurve(curveId)], up to the
    redrawing. *)
Definition clearSolutionCurves : state :=
  mkState (equation st) (xRange st) (yRange st) (gridDensity st)
          [] (curveIdCounter st).

Definition removeCurve (curveId : nat) : state :=
  mkState (equation st) (xRange st) (yRange st) (gridDensity st)
          (filter (fun c => negb (Nat.eqb (id c) curveId)) (solutionCurves st))
          (curveIdCounter st).
End WithView.

(** The component as mounted. *)
Definition initial : state :=
  mkState "dy/dx = x + y" (-4, 4) (-3, 3) 20 [] 0.

(** An entry of [presetEquations]. *)
Record preset : Type := mkPreset {
  preset_name : string;
  preset_eq : string
}.

Definition presetEquations : list preset :=
  [ mkPreset "线性方程" "dy/dx = x + y";
    mkPreset "分离变量" "dy/dx = x*y";
    mkPreset "简单振荡" "dy/dx = -x";
    mkPreset "Logistic增长" "dy/dx = y*(1-y)";
    mkPreset "圆形轨迹" "dy/dx = -x/y";
    mkPreset "双曲线" "dy/dx = y/x" ].

(** [loadPreset(preset)], up to the redrawing. *)
Definition loadPreset (p : preset) (st : state) : state :=
  clearSolutionCurves
    (mkState (preset_eq p) (xRange st) (yRange st) (gridDensity st)
             (solutionCurves st) (curveIdCounter st)).

(** What the user can do with the component: click the canvas at a point
    (given in data coordinates), remove a curve of the list, clear the
    curves, load a preset, type into the inputs (the [v-model] bindings). *)
Inductive action : Type :=
| Click (x0 y0 : float)
| Remove (curveId : nat)
| Clear
| LoadPreset (p : preset)
| Edit (equation : string) (xRange yRange : float * float) (gridDensity : float).

Definition perform (evaluate : evaluator) (st : state) (a : action) : state :=
  match a with
  | Click x0 y0 => addSolutionCurve st evaluate x0 y0
  | Remove curveId => removeCurve st curveId
  | Clear => clearSolutionCurves st
  | LoadPreset p => loadPreset p st
  | Edit e xr yr d => mkState e xr yr d (solutionCurves st) (curveIdCounter st)
  end.

(** The state after a sequence of actions. *)
Definition session (evaluate : evaluator) (actions : list action) (st : state)
  : state :=
  fold_left (perform evaluate) actions st.

End Visualizer.

(** ** Vocabulary of the statements *)

(** [k] floating-point additions of [h] to [v]: the abscissa after [k] steps
    of either integrator. *)
Definition add_n (k : nat) (h v : float) : float :=
  Nat.iter k (fun u => u + h) v.

(** Two points with the same coordinates. *)
Definition same_point (p q : point) : bool :=
  PrimFloat.Leibniz.eqb (fst p) (fst q) && PrimFloat.Leibniz.eqb (snd p) (snd q).

Definition occurrences (p : point) (l : list point) : nat :=
  List.length (filter (same_point p) l).

(** None of the first [n] sums [v + h + ... + h] comes back to [v]. *)
Definition leaves (n : nat) (h v : float) : bool :=
  forallb (fun k => negb (PrimFloat.Leibniz.eqb v (add_n k h v))) (seq 1 n).

(** The values taken by the variable of
    [for (let v = lo; v <= hi; v += step)], started at [v]. *)
Fixpoint axis (fuel : nat) (hi step v : float) : option (list float) :=
  match fuel with
  | O => None
  | S fuel' =>
      if v <=? hi then option_map (cons v) (axis fuel' hi step (v + step))
      else Some []
  end.

(** [vs] is the progression [lo], [lo + step], [(lo + step) + step], ...
    taken for as long as its value does not exceed [hi]. *)
Definition progression (lo hi step : float) (vs : list float) : Prop :=
  vs = map (fun k => add_n k step lo) (seq 0 (List.length vs))
  /\ Forall (fun u => (u <=? hi) = true) vs
  /\ (add_n (List.length vs) step lo <=? hi) = false.

(** The number [d] as the slider of the grid density gives it. *)
Definition density (d : nat) : float :=
  PrimFloat.of_uint63 (Uint63.of_Z (Z.of_nat d)).

(** The grid of two axes in drawing order, with the slope at each point. *)
Definition grid (f : float -> float -> float) (xs ys : list float)
  : list Visualizer.triple :=
  flat_map (fun x => map (fun y => (x, y, f x y)) ys) xs.

Module Box.
Section WithView.
Variable st : Visualizer.state.

(** The point lies within [xMin, xMax] x [yMin, yMax]. *)
Definition inside (p : point) : bool :=
  (fst (Visualizer.xRange st) <=? fst p)
  && (fst p <=? snd (Visualizer.xRange st))
  && (fst (Visualizer.yRange st) <=? snd p)
  && (snd p <=? snd (Visualizer.yRange st)).

(** The point lies strictly inside the rectangle. *)
Definition strictly_inside (p : point) : bool :=
  (fst (Visualizer.xRange st) <? fst p)
  && (fst p <? snd (Visualizer.xRange st))
  && (fst (Visualizer.yRange st) <? snd p)
  && (snd p <? snd (Visualizer.yRange st)).

(** The point lies on an edge of the rectangle: it is within the rectangle
    and one of its coordinates is a bound ([=?] is the comparison [==] of
    numbers). *)
Definition on_edge (p : point) : bool :=
  inside p
  && ((fst p =? fst (Visualizer.xRange st))
      || (fst p =? snd (Visualizer.xRange st))
      || (snd p =? fst (Visualizer.yRange st))
      || (snd p =? snd (Visualizer.yRange st))).

(** The bounds of the rectangle are numbers. *)
Definition bounds_are_numbers : bool :=
  negb (is_nan (fst (Visualizer.xRange st)))
  && negb (is_nan (snd (Visualizer.xRange st)))
  && negb (is_nan (fst (Visualizer.yRange st)))
  && negb (is_nan (snd (Visualizer.yRange st))).

(** The four stages of one Runge-Kutta step are finite. *)
Definition stagesFinite (f : float -> float -> float) (h x y : float) : bool :=
  let k1 := h * f x y in
  let k2 := h * f (x + h / 2) (y + k1 / 2) in
  let k3 := h * f (x + h / 2) (y + k2 / 2) in
  let k4 := h * f (x + h) (y + k3) in
  isFinite k1 && isFinite k2 && isFinite k3 && isFinite k4.

(** What holds of every point that is followed by another one: it
    passed the range test, and its coordinates are numbers. *)
Definition accepted (p : point) : Prop :=
  Visualizer.outOfRange st (fst p) (snd p) = false
  /\ is_nan (fst p) = false /\ is_nan (snd p) = false.

(** The point one Runge-Kutta step leads to. *)
Definition rk4_next (f : float -> float -> float) (h x y : float) : point :=
  let k1 := h * f x y in
  let k2 := h * f (x + h / 2) (y + k1 / 2) in
  let k3 := h * f (x + h / 2) (y + k2 / 2) in
  let k4 := h * f (x + h) (y + k3) in
  (x + h, y + (k1 + 2 * k2 + 2 * k3 + k4) / 6).

(** The points pushed after [(x, y)] by at most [n] iterations. *)
Fixpoint run_from (n : nat) (f : float -> float -> float) (h x y : float)
  : list point :=
  match n with
  | O => []
  | S n' =>
      if Visualizer.outOfRange st x y then []
      else if negb (stagesFinite f h x y) then []
      else
        let p := rk4_next f h x y in
        if negb (isFinite (fst p)) || negb (isFinite (snd p)) then []
        else p :: run_from n' f h (fst p) (snd p)
  end.
End WithView.
End Box.

(** The policy of a compiled slope function in the words of the
    specification: a query never raises, and it returns the sentinel slope 0
    when the evaluator fails or gives a non-finite result. *)
Definition sentinel_policy
           (compile : evaluator -> string -> float -> float -> query) : Prop :=
  forall (evaluate : evaluator) (eqStr : string) (x y : float),
  exists v,
    outcome (compile evaluate eqStr x y) = Normal v
    /\ match evaluate (processedEq eqStr) x y with
       | Normal r => isFinite r = false -> v = 0
       | Throw _ => v = 0
       end.

(** [n] spaces. *)
Fixpoint spaces (n : nat) : string :=
  match n with
  | O => EmptyString
  | S n' => String " " (spaces n')
  end.

(** The number of clicks among the actions of a session. *)
Fixpoint clicks (actions : list Visualizer.action) : nat :=
  match actions with
  | [] => O
  | Visualizer.Click _ _ :: rest => S (clicks rest)
  | _ :: rest => clicks rest
  end.

(** The identifiers of the curves are strictly increasing along the list
    and all below the counter. *)
Definition ids_fresh (st : Visualizer.state) : Prop :=
  StronglySorted (fun a b => (Visualizer.id a < Visualizer.id b)%nat)
                 (Visualizer.solutionCurves st)
  /\ Forall (fun c => (Visualizer.id c < Visualizer.curveIdCounter st)%nat)
            (Visualizer.solutionCurves st).

(** The reason for which the loop of [generateSolutionCurve] breaks at the
    point [p]: it is out of range, or a stage or a coordinate of the step
    from it is not finite. *)
Definition stops_at (st : Visualizer.state) (f : float -> float -> float)
           (h : float) (p : point) : Prop :=
  Visualizer.outOfRange st (fst p) (snd p) = true
  \/ Box.stagesFinite f h (fst p) (snd p) = false
  \/ isFinite (fst (Box.rk4_next f h (fst p) (snd p))) = false
  \/ isFinite (snd (Box.rk4_next f h (fst p) (snd p))) = false.

(** The text of the completion step for a trajectory of [n] points. *)
Definition completion_text (n : nat) : string :=
  "共计算了 " ++ Solver.lengthToString n ++ " 个数据点".

(** The solver at rest: it is not loading, and its step log is empty, or a
    single error step, or the four numbered steps, the last of which counts
    the points of the non-empty trajectory on display. *)
Definition settled (st : Solver.state) : Prop :=
  Solver.isLoading st = false
  /\ (Solver.solutionSteps st = []
      \/ (exists e, Solver.solutionSteps st = [Solver.errorStep e])
      \/ (map Solver.step (Solver.solutionSteps st) = ["1"; "2"; "3"; "4"]%string
          /\ Solver.solution st <> []
          /\ option_map Solver.result (nth_error (Solver.solutionSteps st) 3)
             = Some (Some (completion_text (List.length (Solver.solution st)))))).

(** ** Concrete inputs *)

(** The compiled function of the default equation, with the reference
    evaluator. *)
Definition default_slope : float -> float -> float :=
  Visualizer.compiled ReferenceEvaluator.evaluate "dy/dx = x + y".

(** The default view with a grid density of 3 and the equation [x+y]. *)
Definition view3 : Visualizer.state :=
  Visualizer.mkState "dy/dx = x+y" (-4, 4) (-3, 3) 3 [] 0.

(** The same view with a grid density of 2. *)
Definition view2 : Visualizer.state :=
  Visualizer.mkState "dy/dx = x+y" (-4, 4) (-3, 3) 2 [] 0.

(** A wide view on the equation [dy/dx = 0]. *)
Definition wide_view : Visualizer.state :=
  Visualizer.mkState "dy/dx = 0" (-1e17, 1e17) (-3, 3) 20 [] 0.

(** The solver after a successful solve, its equation then edited into a
    malformed one. *)
Definition edited_solver : Solver.state :=
  Solver.mkState "dy/dx = x +" 0 1 2 0.1
                 [(0, 1); (0.1, 1.1103416666666668)]
                 [] false.

(** * Properties *)

Open Scope list_scope.

(** Closed statements are settled by evaluation, conjunct by conjunct. *)
Ltac by_evaluation :=
  repeat match goal with |- _ /\ _ => split end; vm_compute; reflexivity.

(** ** The model on the inputs of the components *)

Example processedEq_default : processedEq "dy/dx = x + y" = "x + y"%string.
Proof. reflexivity. Qed.

Example processedEq_power : processedEq "dy/dx=x^2 - y" = "x**2 - y"%string.
Proof. reflexivity. Qed.

Example processedEq_without_marker : processedEq "y/x" = "y/x"%string.
Proof. reflexivity. Qed.

Example includes_division_by_x :
  includes "y/x" "/x" = true /\ includes "y/x" "/y" = false
  /\ includes "dy/dx" "/x" = false.
Proof. by_evaluation. Qed.

Example blank_equation : blank "  " = true /\ blank " x " = false.
Proof. split; reflexivity. Qed.

Example reference_evaluator_samples :
  ReferenceEvaluator.evaluate "x + y" 1 2 = Normal 3
  /\ ReferenceEvaluator.evaluate "y*(1-y)" 0 3 = Normal (-6)
  /\ ReferenceEvaluator.evaluate "-x/y" 1 0 = Normal neg_infinity
  /\ ReferenceEvaluator.evaluate "x +" 1 2
     = Throw (ErrorObject "Unexpected end of expression").
Proof. by_evaluation. Qed.

(** The default solve: 21 points, the last one at x = 2.0000000000000004. *)
Example default_solve :
  exists pts,
    Solver.rungeKutta4 22 (fun x y => ReferenceEvaluator.evaluate "x + y" x y)
                       0 1 0.1 2 = Some (Normal pts)
    /\ List.length pts = 21%nat
    /\ fst (last pts (0, 0)) = 2.0000000000000004.
Proof. eexists. by_evaluation. Qed.

(** The solve run when the component is mounted: four steps, 21 points. *)
Example mounted_solve :
  exists st',
    Solver.solveEquation ReferenceEvaluator.evaluate (fun _ => "?"%string) 22
                         Solver.initial = Some st'
    /\ List.length (Solver.solution st') = 21%nat
    /\ map Solver.step (Solver.solutionSteps st')
       = ["1"; "2"; "3"; "4"]%string
    /\ option_map Solver.result (nth_error (Solver.solutionSteps st') 3)
       = Some (Some "共计算了 21 个数据点"%string)
    /\ Solver.isLoading st' = false.
Proof. eexists. by_evaluation. Qed.

(** ** Floating-point order and NaN *)

Lemma Prim2SF_nan (v : float) : Prim2SF v = S754_nan <-> is_nan v = true.
Proof.
  unfold Prim2SF. destruct (is_nan v); [tauto|].
  split; [|discriminate].
  destruct (is_zero v); [discriminate|].
  destruct (is_infinity v); [discriminate|].
  destruct (Z.frexp v) as [r e].
  destruct (shr_fexp prec emax _ _ _) as [sh e'].
  destruct (shr_m sh); discriminate.
Qed.

Lemma SFcompare_antisym (a b : spec_float) :
  SFcompare b a = option_map CompOpp (SFcompare a b).
Proof.
  destruct a as [sa|sa| |sa ma ea], b as [sb|sb| |sb mb eb]; simpl;
    try reflexivity;
    try (destruct sa; reflexivity);
    try (destruct sb; reflexivity);
    try (destruct sa, sb; reflexivity).
  destruct sa, sb; simpl; try reflexivity;
    rewrite (Z.compare_antisym ea eb);
    destruct (ea ?= eb)%Z; simpl; try reflexivity;
    pose proof (Pos.compare_cont_antisym ma mb Eq) as E; simpl in E;
    rewrite E; reflexivity.
Qed.

Lemma SFcompare_none (a b : spec_float) :
  SFcompare a b = None -> a = S754_nan \/ b = S754_nan.
Proof.
  destruct a as [sa|sa| |sa ma ea], b as [sb|sb| |sb mb eb]; simpl;
    try discriminate; auto.
Qed.

(** [a < b] is false and both are numbers: then [b <= a]. *)
Lemma ltb_false_leb (a b : float) :
  (a <? b) = false -> is_nan a = false -> is_nan b = false -> (b <=? a) = true.
Proof.
  rewrite ltb_spec, leb_spec. unfold SFltb, SFleb.
  rewrite (SFcompare_antisym (Prim2SF a) (Prim2SF b)).
  intros Hlt Ha Hb.
  destruct (SFcompare (Prim2SF a) (Prim2SF b)) as [[ | | ]|] eqn:E; simpl;
    try reflexivity; try discriminate.
  apply SFcompare_none in E.
  destruct E as [E|E]; apply Prim2SF_nan in E; congruence.
Qed.

Lemma leb_ltb_false (a b : float) : (b <=? a) = true -> (a <? b) = false.
Proof.
  rewrite ltb_spec, leb_spec. unfold SFltb, SFleb.
  rewrite (SFcompare_antisym (Prim2SF a) (Prim2SF b)).
  destruct (SFcompare (Prim2SF a) (Prim2SF b)) as [[ | | ]|]; simpl;
    try reflexivity; discriminate.
Qed.

Lemma isFinite_not_nan (v : float) : isFinite v = true -> is_nan v = false.
Proof.
  unfold isFinite, is_finite. destruct (is_nan v); [discriminate|reflexivity].
Qed.

(** NaN is absorbing for the addition. *)
Lemma add_nan_l (a b : float) : is_nan a = true -> is_nan (a + b) = true.
Proof.
  intros Ha. apply Prim2SF_nan. rewrite add_spec.
  apply Prim2SF_nan in Ha. rewrite Ha. reflexivity.
Qed.

Lemma isFinite_add_l (a b : float) : isFinite (a + b) = true -> is_nan a = false.
Proof.
  intros H. apply isFinite_not_nan in H.
  destruct (is_nan a) eqn:Ha; [|reflexivity].
  rewrite (add_nan_l a b Ha) in H. discriminate.
Qed.

(** ** The bounded-box integrator *)

Section BoxIntegrator.
Variable st : Visualizer.state.
Variable f : float -> float -> float.

Lemma negb_stages (h x y : float) :
  let k1 := h * f x y in
  let k2 := h * f (x + h / 2) (y + k1 / 2) in
  let k3 := h * f (x + h / 2) (y + k2 / 2) in
  let k4 := h * f (x + h) (y + k3) in
  negb (isFinite k1) || negb (isFinite k2) || negb (isFinite k3)
  || negb (isFinite k4) = negb (Box.stagesFinite f h x y).
Proof.
  unfold Box.stagesFinite. cbv zeta.
  rewrite !negb_andb. reflexivity.
Qed.

(** The loop appends to its accumulator the points of [run_from]. *)
Lemma curve_loop_run_from (n : nat) :
  forall h x y pts,
    Visualizer.curve_loop st n f h x y pts = pts ++ Box.run_from st n f h x y.
Proof.
  induction n as [|n IH]; intros h x y pts; simpl.
  - now rewrite app_nil_r.
  - destruct (Visualizer.outOfRange st x y); [now rewrite app_nil_r|].
    rewrite (negb_stages h x y).
    destruct (negb (Box.stagesFinite f h x y)); [now rewrite app_nil_r|].
    unfold Box.rk4_next. cbv zeta. simpl fst. simpl snd.
    destruct (negb (isFinite (x + h)) || negb (isFinite _));
      [now rewrite app_nil_r|].
    rewrite IH, <- app_assoc. reflexivity.
Qed.

Lemma generateSolutionCurve_run_from (x0 y0 direction : float) :
  Visualizer.generateSolutionCurve st f x0 y0 direction
  = (x0, y0) :: Box.run_from st Visualizer.maxSteps f (0.05 * direction) x0 y0.
Proof.
  unfold Visualizer.generateSolutionCurve. cbv zeta.
  generalize Visualizer.maxSteps. intros n.
  rewrite curve_loop_run_from. reflexivity.
Qed.

Lemma run_from_S (n : nat) (h x y : float) :
  Box.run_from st (S n) f h x y
  = if Visualizer.outOfRange st x y then []
    else if negb (Box.stagesFinite f h x y) then []
    else if negb (isFinite (fst (Box.rk4_next f h x y)))
            || negb (isFinite (snd (Box.rk4_next f h x y))) then []
    else Box.rk4_next f h x y
         :: Box.run_from st n f h (fst (Box.rk4_next f h x y))
                         (snd (Box.rk4_next f h x y)).
Proof. reflexivity. Qed.

Lemma run_from_length (n : nat) :
  forall h x y, (List.length (Box.run_from st n f h x y) <= n)%nat.
Proof.
  induction n as [|n IH]; intros h x y; simpl; [lia|].
  destruct (Visualizer.outOfRange st x y); simpl; [lia|].
  destruct (negb (Box.stagesFinite f h x y)); simpl; [lia|].
  destruct (negb _ || negb _); simpl; [lia|].
  apply le_n_S, IH.
Qed.

Lemma seeded_run_length (n : nat) (h x y : float) :
  (List.length ((x, y) :: Box.run_from st n f h x y) <= n + 1)%nat.
Proof.
  cbn [List.length]. rewrite Nat.add_1_r. apply le_n_S, run_from_length.
Qed.

(** C4: bounded-box integration is a total function (the loop is the
    structural recursion [curve_loop] on the remaining iterations) and the
    trajectory it returns has at most [maxSteps + 1 = 201] points: the
    seed, and at most one point per iteration. *)
Theorem generateSolutionCurve_length (x0 y0 direction : float) :
  (List.length (Visualizer.generateSolutionCurve st f x0 y0 direction)
   <= Visualizer.maxSteps + 1)%nat
  /\ (Visualizer.maxSteps + 1 = 201)%nat.
Proof.
  split; [|reflexivity].
  rewrite generateSolutionCurve_run_from. apply seeded_run_length.
Qed.

Lemma removelast_cons2 {A : Type} (a b : A) (l : list A) :
  removelast (a :: b :: l) = a :: removelast (b :: l).
Proof. reflexivity. Qed.

Lemma run_from_accepted (n : nat) :
  forall h x y,
    Forall (Box.accepted st) (removelast ((x, y) :: Box.run_from st n f h x y)).
Proof.
  induction n as [|n IH]; intros h x y; [constructor|].
  rewrite run_from_S.
  - destruct (Visualizer.outOfRange st x y) eqn:Hout; [constructor|].
    destruct (negb (Box.stagesFinite f h x y)); [constructor|].
    destruct (negb (isFinite (fst (Box.rk4_next f h x y)))) eqn:Hx;
      [constructor|].
    destruct (negb (isFinite (snd (Box.rk4_next f h x y)))) eqn:Hy;
      [constructor|].
    cbn [orb]. rewrite removelast_cons2.
    apply negb_false_iff in Hx, Hy.
    constructor.
    + repeat split; [exact Hout| |].
      * exact (isFinite_add_l _ _ Hx).
      * exact (isFinite_add_l _ _ Hy).
    + destruct (Box.rk4_next f h x y) as [x' y']. apply IH.
Qed.

Lemma accepted_inside (p : point) :
  Box.bounds_are_numbers st = true -> Box.accepted st p -> Box.inside st p = true.
Proof.
  unfold Box.bounds_are_numbers, Box.accepted, Visualizer.outOfRange, Box.inside.
  intros Hb (Hout & Hx & Hy).
  repeat (apply andb_true_iff in Hb; destruct Hb as [Hb ?]).
  repeat match goal with H : negb _ = true |- _ => apply negb_true_iff in H end.
  repeat (apply orb_false_iff in Hout; destruct Hout as [Hout ?]).
  repeat (apply andb_true_iff; split); apply ltb_false_leb; assumption.
Qed.

(** C2 (as amended): every point of the trajectory returned by
    [generateSolutionCurve], except possibly the last one, passed the range
    test of the loop, and lies within [xMin, xMax] x [yMin, yMax] when the
    four bounds are numbers.  The last point is not tested: the point that
    leaves the rectangle is emitted, and the run stops at the next
    iteration. *)
Theorem all_but_last_in_rectangle (x0 y0 direction : float) :
  Forall (fun p => Visualizer.outOfRange st (fst p) (snd p) = false)
         (removelast (Visualizer.generateSolutionCurve st f x0 y0 direction))
  /\ (Box.bounds_are_numbers st = true ->
      Forall (fun p => Box.inside st p = true)
             (removelast (Visualizer.generateSolutionCurve st f x0 y0 direction))).
Proof.
  rewrite generateSolutionCurve_run_from.
  pose proof (run_from_accepted Visualizer.maxSteps (0.05 * direction) x0 y0) as H.
  split.
  - eapply Forall_impl; [|exact H]. intros p Hp. apply Hp.
  - intros Hb. eapply Forall_impl; [|exact H].
    intros p Hp. now apply accepted_inside.
Qed.

Lemma run_from_exit (n : nat) (h x y : float) :
  Visualizer.outOfRange st x y = false ->
  Box.stagesFinite f h x y = true ->
  isFinite (fst (Box.rk4_next f h x y)) = true ->
  isFinite (snd (Box.rk4_next f h x y)) = true ->
  Visualizer.outOfRange st (fst (Box.rk4_next f h x y))
                        (snd (Box.rk4_next f h x y)) = true ->
  Box.run_from st (S (S n)) f h x y = [Box.rk4_next f h x y].
Proof.
  intros H1 H2 H3 H4 H5.
  rewrite !run_from_S, H1, H2, H3, H4, H5. reflexivity.
Qed.

Lemma run_from_stop (n : nat) (h x y : float) :
  Box.stagesFinite f h x y = false
  \/ isFinite (fst (Box.rk4_next f h x y)) = false
  \/ isFinite (snd (Box.rk4_next f h x y)) = false ->
  Box.run_from st n f h x y = [].
Proof.
  intros H. destruct n as [|n]; [reflexivity|]. rewrite run_from_S.
  destruct (Visualizer.outOfRange st x y); [reflexivity|].
  destruct H as [H|[H|H]]; rewrite H; cbn [negb orb];
    [reflexivity| |].
  - destruct (negb (Box.stagesFinite f h x y)); reflexivity.
  - destruct (negb (Box.stagesFinite f h x y)); [reflexivity|].
    rewrite orb_true_r. reflexivity.
Qed.

(** A point within the rectangle, its edges included, passes the range
    test of the loop, which compares strictly. *)
Lemma inside_passes_range_test (p : point) :
  Box.inside st p = true -> Visualizer.outOfRange st (fst p) (snd p) = false.
Proof.
  unfold Box.inside, Visualizer.outOfRange. intros H.
  repeat (apply andb_true_iff in H; destruct H as [H ?]).
  repeat (apply orb_false_iff; split); apply leb_ltb_false; assumption.
Qed.

(** A run that pushes nothing from a point that passes the range test
    stopped at a stage or a coordinate that is not finite. *)
Lemma run_from_nil (n : nat) (h x y : float) :
  Visualizer.outOfRange st x y = false ->
  Box.run_from st (S n) f h x y = [] ->
  Box.stagesFinite f h x y = false
  \/ isFinite (fst (Box.rk4_next f h x y)) = false
  \/ isFinite (snd (Box.rk4_next f h x y)) = false.
Proof.
  intros Ho. rewrite run_from_S, Ho.
  destruct (Box.stagesFinite f h x y); cbn [negb]; [|now left].
  destruct (isFinite (fst (Box.rk4_next f h x y))); cbn [negb orb];
    [|right; now left].
  destruct (isFinite (snd (Box.rk4_next f h x y))); cbn [negb];
    [discriminate|right; now right].
Qed.

Lemma seeded_run_alone (n : nat) (h x y : float) :
  Visualizer.outOfRange st x y = false ->
  (x, y) :: Box.run_from st (S n) f h x y = [(x, y)]
  <-> (Box.stagesFinite f h x y = false
       \/ isFinite (fst (Box.rk4_next f h x y)) = false
       \/ isFinite (snd (Box.rk4_next f h x y)) = false).
Proof.
  intros Ho. split.
  - intros H. apply (run_from_nil n); [exact Ho|]. now injection H.
  - intros H. now rewrite run_from_stop.
Qed.

(** C8 (as amended): a seed on an edge of the rectangle passes the range
    test, which compares strictly.  When its first Runge-Kutta step is
    finite and leads out of the rectangle, the run accepts exactly one step
    beyond the seed: the trajectory is the seed followed by that first
    point outside the rectangle.  The trajectory is the seed alone exactly
    when a stage or a coordinate of that first step is not finite. *)
Theorem edge_seed_takes_one_step (x0 y0 direction : float) :
  Box.on_edge st (x0, y0) = true ->
  Visualizer.outOfRange st x0 y0 = false
  /\ (Box.stagesFinite f (0.05 * direction) x0 y0 = true ->
      isFinite (fst (Box.rk4_next f (0.05 * direction) x0 y0)) = true ->
      isFinite (snd (Box.rk4_next f (0.05 * direction) x0 y0)) = true ->
      Visualizer.outOfRange st (fst (Box.rk4_next f (0.05 * direction) x0 y0))
                            (snd (Box.rk4_next f (0.05 * direction) x0 y0)) = true ->
      Visualizer.generateSolutionCurve st f x0 y0 direction
      = [(x0, y0); Box.rk4_next f (0.05 * direction) x0 y0])
  /\ (Visualizer.generateSolutionCurve st f x0 y0 direction = [(x0, y0)]
      <-> (Box.stagesFinite f (0.05 * direction) x0 y0 = false
           \/ isFinite (fst (Box.rk4_next f (0.05 * direction) x0 y0)) = false
           \/ isFinite (snd (Box.rk4_next f (0.05 * direction) x0 y0)) = false)).
Proof.
  intros He. apply andb_true_iff in He. destruct He as [Hi _].
  apply inside_passes_range_test in Hi. cbn [fst snd] in Hi.
  split; [exact Hi|]. rewrite generateSolutionCurve_run_from. split.
  - intros H2 H3 H4 H5. f_equal.
    exact (run_from_exit 198 (0.05 * direction) x0 y0 Hi H2 H3 H4 H5).
  - exact (seeded_run_alone 199 (0.05 * direction) x0 y0 Hi).
Qed.

End BoxIntegrator.

(** C2, counterexample: with the default view and equation, the run from
    (3.98, 0), a seed strictly inside the rectangle, returns two points, and
    the second one has left [-4, 4] x [-3, 3]. *)
Lemma exit_point_is_emitted :
  Box.strictly_inside Visualizer.initial (3.98, 0) = true
  /\ exists p,
      Visualizer.generateSolutionCurve Visualizer.initial default_slope 3.98 0 1
      = [(3.98, 0); p]
      /\ Box.inside Visualizer.initial p = false.
Proof.
  split; [reflexivity|].
  eexists. split; vm_compute; reflexivity.
Qed.

Lemma all_but_last_in_rectangle_witness :
  Box.bounds_are_numbers Visualizer.initial = true
  /\ Forall (fun p => Box.inside Visualizer.initial p = true)
            (removelast (Visualizer.generateSolutionCurve
                           Visualizer.initial default_slope 3.98 0 1)).
Proof.
  split; [reflexivity|].
  apply (all_but_last_in_rectangle Visualizer.initial default_slope 3.98 0 1).
  reflexivity.
Defined.

(** C8, counterexample: with the default view and equation, the forward run
    from the seed (4, 0) on the right edge returns two points, not the seed
    alone. *)
Lemma edge_seed_is_not_alone :
  Box.on_edge Visualizer.initial (4, 0) = true
  /\ Visualizer.generateSolutionCurve Visualizer.initial default_slope 4 0 1
     <> [(4, 0)]
  /\ List.length
       (Visualizer.generateSolutionCurve Visualizer.initial default_slope 4 0 1)
     = 2%nat.
Proof.
  split; [reflexivity|].
  split; [|vm_compute; reflexivity].
  intros H. apply (f_equal (@List.length point)) in H.
  vm_compute in H. discriminate.
Qed.

Lemma edge_seed_takes_one_step_witness :
  Box.on_edge Visualizer.initial (4, 0) = true
  /\ Visualizer.outOfRange Visualizer.initial 4 0 = false
  /\ Visualizer.generateSolutionCurve Visualizer.initial default_slope 4 0 1
     = [(4, 0); Box.rk4_next default_slope (0.05 * 1) 4 0].
Proof.
  split; [reflexivity|].
  destruct (edge_seed_takes_one_step Visualizer.initial default_slope 4 0 1
                                     eq_refl) as (H1 & H2 & _).
  split; [exact H1|]. apply H2; vm_compute; reflexivity.
Defined.

(** ** The equation compilers *)

Lemma isFinite_zero : isFinite 0 = true.
Proof. reflexivity. Qed.

Lemma isFinite_or_zero (r : float) :
  isFinite (if isFinite r then r else 0) = true.
Proof. destruct (isFinite r) eqn:E; [exact E|reflexivity]. Qed.

(** A query of the visualisation closure completes normally, whatever the
    evaluator does. *)
Lemma visualizer_query_returns (evaluate : evaluator) (eqStr : string) (x y : float) :
  outcome (Visualizer.parseEquation evaluate eqStr x y)
  = Normal (Visualizer.compiled evaluate eqStr x y).
Proof.
  unfold Visualizer.compiled, Visualizer.parseEquation. cbv zeta.
  destruct ((Math_abs y <? 1e-10) && _); [reflexivity|].
  destruct ((Math_abs x <? 1e-10) && _); [reflexivity|].
  unfold outcome. cbn [snd].
  destruct (evaluate (processedEq eqStr) x y); reflexivity.
Qed.

Lemma compiled_isFinite (evaluate : evaluator) (eqStr : string) (x y : float) :
  isFinite (Visualizer.compiled evaluate eqStr x y) = true.
Proof.
  unfold Visualizer.compiled, Visualizer.parseEquation. cbv zeta.
  destruct ((Math_abs y <? 1e-10) && _); [reflexivity|].
  destruct ((Math_abs x <? 1e-10) && _); [reflexivity|].
  unfold outcome. cbn [snd].
  destruct (evaluate (processedEq eqStr) x y);
    [apply isFinite_or_zero|reflexivity].
Qed.

Lemma visualizer_sentinel : sentinel_policy Visualizer.parseEquation.
Proof.
  intros evaluate eqStr x y.
  exists (Visualizer.compiled evaluate eqStr x y).
  split; [apply visualizer_query_returns|].
  unfold Visualizer.compiled, Visualizer.parseEquation. cbv zeta.
  destruct ((Math_abs y <? 1e-10) && _);
    [destruct (evaluate _ x y); [intros _|]; reflexivity|].
  destruct ((Math_abs x <? 1e-10) && _);
    [destruct (evaluate _ x y); [intros _|]; reflexivity|].
  unfold outcome. cbn [snd].
  destruct (evaluate (processedEq eqStr) x y) as [r|e]; [|reflexivity].
  intros Hr. rewrite Hr. reflexivity.
Qed.

(** C1, counterexample: the closure of the solver-mode compiler lets the
    evaluator's exception through (malformed [dy/dx = x +]) and returns a
    non-finite result as it is ([dy/dx = y/x] at x = 0). *)
Lemma solver_compiler_has_no_sentinel :
  ~ sentinel_policy Solver.parseEquation
  /\ outcome (Solver.parseEquation ReferenceEvaluator.evaluate "dy/dx = x +" 0 1)
     = Throw (ErrorObject "Unexpected end of expression")
  /\ outcome (Solver.parseEquation ReferenceEvaluator.evaluate "dy/dx = y/x" 0 1)
     = Normal infinity.
Proof.
  split; [|split; vm_compute; reflexivity].
  intros H.
  destruct (H ReferenceEvaluator.evaluate "dy/dx = x +"%string 0 1) as (v & Hv & _).
  vm_compute in Hv. discriminate.
Qed.

(** C1 (as amended): the compiled function of the visualisation-mode
    compiler never raises and returns a finite number, which is 0 whenever
    the evaluator throws or gives a non-finite result; the compiled function
    of the solver-mode compiler has no such policy: every query invokes the
    evaluator once and completes exactly as the evaluator does, exception or
    non-finite result included. *)
Theorem compiled_function_policies :
  sentinel_policy Visualizer.parseEquation
  /\ (forall (evaluate : evaluator) (eqStr : string) (x y : float),
        exists v,
          outcome (Visualizer.parseEquation evaluate eqStr x y) = Normal v
          /\ isFinite v = true)
  /\ (forall (evaluate : evaluator) (eqStr : string) (x y : float),
        Solver.parseEquation evaluate eqStr x y
        = ([(processedEq eqStr, x, y)], evaluate (processedEq eqStr) x y)).
Proof.
  split; [exact visualizer_sentinel|split].
  - intros evaluate eqStr x y.
    exists (Visualizer.compiled evaluate eqStr x y).
    split; [apply visualizer_query_returns|apply compiled_isFinite].
  - reflexivity.
Qed.

(** C3, counterexample: the solver-mode compiler has no singularity guard;
    for [dy/dx = y/x] at (0, 1), where |x| < 1e-10 and the expression
    contains [/x], its closure invokes the evaluator and returns the
    quotient, which is infinite. *)
Lemma solver_compiler_has_no_guard :
  includes (processedEq "dy/dx = y/x") "/x" = true
  /\ (Math_abs 0 <? 1e-10) = true
  /\ Solver.parseEquation ReferenceEvaluator.evaluate "dy/dx = y/x" 0 1
     = ([("y/x"%string, 0, 1)], Normal infinity).
Proof. by_evaluation. Qed.

(** C3 (as amended): with the visualisation-mode compiler, for every
    equation whose expression text contains [/x] (resp. [/y]) and every
    query point where |x| < 1e-10 (resp. |y| < 1e-10), the compiled function
    returns 0 without invoking the evaluator and without raising; in
    particular it does so for [dy/dx = y/x] whenever |x| < 1e-10. *)
Theorem singularity_guard (evaluate : evaluator) (x y : float) :
  (forall eqStr : string,
      includes (processedEq eqStr) "/x" = true /\ (Math_abs x <? 1e-10) = true
      \/ includes (processedEq eqStr) "/y" = true /\ (Math_abs y <? 1e-10) = true ->
      Visualizer.parseEquation evaluate eqStr x y = ([], Normal 0))
  /\ ((Math_abs x <? 1e-10) = true ->
      Visualizer.parseEquation evaluate "dy/dx = y/x" x y = ([], Normal 0)
      /\ isFinite 0 = true).
Proof.
  assert (G : forall eqStr : string,
             includes (processedEq eqStr) "/x" = true /\ (Math_abs x <? 1e-10) = true
             \/ includes (processedEq eqStr) "/y" = true /\ (Math_abs y <? 1e-10) = true ->
             Visualizer.parseEquation evaluate eqStr x y = ([], Normal 0)).
  { intros eqStr H. unfold Visualizer.parseEquation. cbv zeta.
    destruct ((Math_abs y <? 1e-10) && includes (processedEq eqStr) "/y") eqn:Ey;
      [reflexivity|].
    destruct H as [[Hi Hx]|[Hi Hy]].
    - rewrite Hi, Hx. reflexivity.
    - rewrite Hi, Hy in Ey. discriminate. }
  split; [exact G|].
  intros Hx. split; [|reflexivity].
  apply G. left. split; [reflexivity|exact Hx].
Qed.

Lemma singularity_guard_witness :
  Visualizer.parseEquation ReferenceEvaluator.evaluate "dy/dx = y/x" 0 1
  = ([], Normal 0)
  /\ Visualizer.parseEquation ReferenceEvaluator.evaluate "dy/dx = -x/y" 1 0
     = ([], Normal 0).
Proof.
  split.
  - apply (proj2 (singularity_guard ReferenceEvaluator.evaluate 0 1)).
    reflexivity.
  - apply (proj1 (singularity_guard ReferenceEvaluator.evaluate 1 0)).
    right. split; reflexivity.
Defined.

(** ** Field sampling *)

Section FieldSampling.
Variable st : Visualizer.state.
Variable f : float -> float -> float.
Hypothesis f_finite : forall x y, isFinite (f x y) = true.

(** With an everywhere finite slope the inner loop appends one segment per
    value of its variable. *)
Lemma field_column_axis (fuel : nat) :
  forall stepY x y segments,
    Visualizer.field_column st fuel f stepY x y segments
    = option_map (fun ys => segments ++ map (fun v => (x, v, f x v)) ys)
                 (axis fuel (snd (Visualizer.yRange st)) stepY y).
Proof.
  induction fuel as [|fuel IH]; intros stepY x y segments; [reflexivity|].
  cbn [Visualizer.field_column axis].
  destruct (y <=? snd (Visualizer.yRange st)).
  - rewrite f_finite. cbn [negb]. rewrite IH.
    destruct (axis fuel _ stepY (y + stepY)) as [ys|]; [|reflexivity].
    cbn [option_map map]. now rewrite <- app_assoc.
  - cbn [option_map map]. now rewrite app_nil_r.
Qed.

Lemma field_rows_axis (inner fuel : nat) :
  forall stepX stepY x segments,
    Visualizer.field_rows st fuel inner f stepX stepY x segments
    = match axis fuel (snd (Visualizer.xRange st)) stepX x with
      | None => None
      | Some [] => Some segments
      | Some xs =>
          option_map (fun ys => segments ++ grid f xs ys)
                     (axis inner (snd (Visualizer.yRange st)) stepY
                           (fst (Visualizer.yRange st)))
      end.
Proof.
  induction fuel as [|fuel IH]; intros stepX stepY x segments; [reflexivity|].
  cbn [Visualizer.field_rows axis].
  destruct (x <=? snd (Visualizer.xRange st)); [|reflexivity].
  rewrite field_column_axis.
  destruct (axis inner _ stepY _) as [ys|] eqn:Ey; cbn [option_map].
  - rewrite IH, Ey.
    destruct (axis fuel _ stepX (x + stepX)) as [[|x' xs]|]; cbn [option_map].
    + unfold grid. cbn [flat_map]. now rewrite app_nil_r.
    + unfold grid. cbn [flat_map]. now rewrite <- app_assoc.
    + reflexivity.
  - destruct (axis fuel _ stepX (x + stepX)) as [xs|]; reflexivity.
Qed.
End FieldSampling.

(** The field drawn for a compiled equation is the whole grid. *)
Lemma drawSlopeField_grid (st : Visualizer.state) (evaluate : evaluator) (fuel : nat) :
  Visualizer.drawSlopeField st evaluate fuel
  = match axis fuel (snd (Visualizer.xRange st)) (Visualizer.stepX st)
               (fst (Visualizer.xRange st)) with
    | None => None
    | Some [] => Some []
    | Some xs =>
        option_map
          (grid (Visualizer.compiled evaluate (Visualizer.equation st)) xs)
          (axis fuel (snd (Visualizer.yRange st)) (Visualizer.stepY st)
                (fst (Visualizer.yRange st)))
    end.
Proof.
  unfold Visualizer.drawSlopeField.
  rewrite field_rows_axis by (intros x y; apply compiled_isFinite).
  reflexivity.
Qed.

(** C9: the compiled function of the visualisation mode returns a finite
    number at every point, so the skip branch of the field sampling is never
    taken: the segments drawn are those of the whole grid (every value of the
    outer variable paired with every value of the inner one, with the slope
    there), without gaps. *)
Theorem sampled_field_has_no_gaps (st : Visualizer.state) (evaluate : evaluator) :
  (forall x y,
      isFinite (Visualizer.compiled evaluate (Visualizer.equation st) x y) = true)
  /\ forall fuel : nat,
      Visualizer.drawSlopeField st evaluate fuel
      = match axis fuel (snd (Visualizer.xRange st)) (Visualizer.stepX st)
                   (fst (Visualizer.xRange st)) with
        | None => None
        | Some [] => Some []
        | Some xs =>
            option_map
              (grid (Visualizer.compiled evaluate (Visualizer.equation st)) xs)
              (axis fuel (snd (Visualizer.yRange st)) (Visualizer.stepY st)
                    (fst (Visualizer.yRange st)))
        end.
Proof.
  split; [intros x y; apply compiled_isFinite|].
  intros fuel. apply drawSlopeField_grid.
Qed.

Lemma add_n_shift (k : nat) (h v : float) :
  add_n k h (v + h) = add_n (S k) h v.
Proof.
  induction k as [|k IH]; [reflexivity|].
  change (add_n (S k) h (v + h)) with (add_n k h (v + h) + h).
  rewrite IH. reflexivity.
Qed.

(** The values of a loop variable are the start value and its successive
    sums with the step, for as long as they do not exceed the upper bound. *)
Lemma axis_spec (fuel : nat) :
  forall hi step v vs,
    axis fuel hi step v = Some vs -> progression v hi step vs.
Proof.
  unfold progression.
  induction fuel as [|fuel IH]; intros hi step v vs H; [discriminate|].
  cbn [axis] in H. destruct (v <=? hi) eqn:Hv.
  - destruct (axis fuel hi step (v + step)) as [vs'|] eqn:E; [|discriminate].
    injection H as <-. destruct (IH _ _ _ _ E) as (H1 & H2 & H3).
    cbn [List.length seq map]. split; [|split].
    + f_equal. rewrite <- seq_shift, map_map.
      rewrite H1 at 1. apply map_ext. intros k. apply add_n_shift.
    + constructor; assumption.
    + rewrite <- add_n_shift. exact H3.
  - injection H as <-. split; [reflexivity|]. split; [constructor|exact Hv].
Qed.

Lemma grid_ext (f g : float -> float -> float) (xs ys : list float) :
  (forall x y, f x y = g x y) -> grid f xs ys = grid g xs ys.
Proof.
  intros H. unfold grid. apply flat_map_ext. intros x.
  apply map_ext. intros y. now rewrite H.
Qed.

Lemma grid_length (f : float -> float -> float) (xs ys : list float) :
  List.length (grid f xs ys) = (List.length xs * List.length ys)%nat.
Proof.
  unfold grid. induction xs as [|x xs IH]; [reflexivity|].
  cbn [flat_map List.length]. rewrite length_app, length_map, IH. reflexivity.
Qed.

(** The compiled function of [dy/dx = x+y], for an evaluator that computes
    the sum. *)
Lemma compiled_sum (evaluate : evaluator) :
  (forall x y, evaluate "x+y"%string x y = Normal (x + y)) ->
  forall x y,
    Visualizer.compiled evaluate "dy/dx = x+y" x y
    = if isFinite (x + y) then x + y else 0.
Proof.
  intros H x y. unfold Visualizer.compiled, Visualizer.parseEquation. cbv zeta.
  change (processedEq "dy/dx = x+y") with "x+y"%string.
  change (includes "x+y" "/y") with false.
  change (includes "x+y" "/x") with false.
  rewrite !andb_false_r. unfold outcome. cbn [snd]. rewrite H. reflexivity.
Qed.

(** C5, counterexample: with a grid density of 3 on the default bounds and
    the equation [dy/dx = x+y], the field has 16 segments, not 9; with the
    default density of 20 it has 441, not 400. *)
Lemma field_of_density_3_has_16_segments :
  option_map (@List.length _)
             (Visualizer.drawSlopeField view3 ReferenceEvaluator.evaluate 5)
  = Some 16%nat
  /\ option_map (@List.length _)
                (Visualizer.drawSlopeField Visualizer.initial
                                           ReferenceEvaluator.evaluate 22)
     = Some 441%nat.
Proof. split; vm_compute; reflexivity. Qed.

(** A progression is what the loop computes, as soon as the fuel exceeds
    its length. *)
Lemma axis_total (vs : list float) :
  forall fuel hi step v,
    progression v hi step vs ->
    (List.length vs < fuel)%nat ->
    axis fuel hi step v = Some vs.
Proof.
  unfold progression.
  induction vs as [|a vs IH]; intros fuel hi step v (H1 & H2 & H3) Hf;
    (destruct fuel as [|fuel]; [inversion Hf|]); cbn [axis].
  - change (add_n (List.length []) step v) with v in H3. now rewrite H3.
  - cbn [List.length seq map] in H1. injection H1 as Ha Hvs.
    change (add_n 0 step v) with v in Ha. subst a.
    inversion H2 as [|? ? Hv Hrest]; subst. rewrite Hv.
    rewrite (IH fuel hi step (v + step)); [reflexivity| |].
    + split; [|split].
      * rewrite Hvs at 1. rewrite <- (seq_shift _ 0), map_map.
        apply map_ext. intros k. symmetry. apply add_n_shift.
      * exact Hrest.
      * rewrite add_n_shift. exact H3.
    + cbn [List.length] in Hf. now apply Nat.succ_lt_mono.
Qed.

Lemma progression_head (lo hi step : float) (vs : list float) :
  progression lo hi step vs -> vs <> [] -> hd_error vs = Some lo.
Proof.
  intros (H1 & _) Hn. destruct vs as [|a vs]; [now elim Hn|].
  cbn [List.length seq map] in H1. injection H1 as Ha _.
  cbn [hd_error]. now rewrite Ha.
Qed.

(** The field for two progressions, whatever the fuel beyond their lengths. *)
Lemma drawSlopeField_progressions (st : Visualizer.state) (evaluate : evaluator)
      (xs ys : list float) (fuel : nat) :
  progression (fst (Visualizer.xRange st)) (snd (Visualizer.xRange st))
              (Visualizer.stepX st) xs ->
  progression (fst (Visualizer.yRange st)) (snd (Visualizer.yRange st))
              (Visualizer.stepY st) ys ->
  (List.length xs < fuel)%nat -> (List.length ys < fuel)%nat ->
  Visualizer.drawSlopeField st evaluate fuel
  = Some (grid (Visualizer.compiled evaluate (Visualizer.equation st)) xs ys).
Proof.
  intros Hx Hy Hfx Hfy. rewrite drawSlopeField_grid.
  rewrite (axis_total xs fuel _ _ _ Hx Hfx), (axis_total ys fuel _ _ _ Hy Hfy).
  destruct xs; reflexivity.
Qed.

Lemma In_existsb (v : float) (l : list float) :
  In v l -> existsb (PrimFloat.Leibniz.eqb v) l = true.
Proof.
  intros H. apply existsb_exists. exists v. split; [exact H|].
  now apply FloatAxioms.Leibniz.eqb_spec.
Qed.

(** On the default bounds, for every density of the slider, each loop
    exits, after as many values as the density or one more. *)
Lemma default_axes_checked :
  forallb
    (fun d =>
       match axis (d + 2) 4 ((4 - (-4)) / density d) (-4),
             axis (d + 2) 3 ((3 - (-3)) / density d) (-3) with
       | Some xs, Some ys =>
           (Nat.eqb (List.length xs) d || Nat.eqb (List.length xs) (S d))
           && (Nat.eqb (List.length ys) d || Nat.eqb (List.length ys) (S d))
       | _, _ => false
       end)
    (seq 10 31) = true.
Proof. vm_compute. reflexivity. Qed.

Lemma default_axes (d : nat) :
  (10 <= d <= 40)%nat ->
  exists xs ys,
    axis (d + 2) 4 ((4 - (-4)) / density d) (-4) = Some xs
    /\ axis (d + 2) 3 ((3 - (-3)) / density d) (-3) = Some ys
    /\ (List.length xs = d \/ List.length xs = S d)
    /\ (List.length ys = d \/ List.length ys = S d).
Proof.
  intros Hd. pose proof default_axes_checked as H.
  rewrite forallb_forall in H. specialize (H d).
  cbv beta in H.
  destruct (axis (d + 2) 4 _ _) as [xs|]; [|discriminate H; apply in_seq; lia].
  destruct (axis (d + 2) 3 _ _) as [ys|]; [|discriminate H; apply in_seq; lia].
  exists xs, ys. split; [reflexivity|]. split; [reflexivity|].
  assert (Hin : In d (seq 10 31)) by (apply in_seq; lia).
  apply H in Hin. apply andb_true_iff in Hin. destruct Hin as [Hx Hy].
  apply orb_true_iff in Hx. apply orb_true_iff in Hy.
  rewrite !Nat.eqb_eq in Hx, Hy. split; assumption.
Qed.

(** C5 (as amended): the field drawn is the grid of two progressions, one
    per axis, each starting at the lower bound of its range and advancing by
    floating-point additions of (upper - lower) / gridDensity for as long as
    the value does not exceed the upper bound.  With nx abscissas and ny
    ordinates the sampling terminates with exactly nx * ny segments, none
    skipped, and nothing else is ever returned.  The count is not
    gridDensity x gridDensity in general, and the upper bounds need not be
    sampled: on the default bounds, for every density d of the slider (10 to
    40), each axis starts at its lower bound and has d or d + 1 values
    (11 x 10 for 10, 17 x 17 for 17, 21 x 21 for the default 20, where the
    last values fall short of 4 and 3, and 40 x 41 for 40).  Concretely, a
    3 x 3 grid is what a grid density of 2 gives: on the default bounds and
    [dy/dx = x+y] the field is the grid of the abscissas -4, 0, 4 and the
    ordinates -3, 0, 3, exactly 9 segments, none skipped, each with a slope
    equal to the sum of its two coordinates, the one at the centre (0, 0)
    included. *)
Theorem field_is_grid_of_progressions (evaluate : evaluator) :
  (forall (st : Visualizer.state) (xs ys : list float) (fuel : nat),
      progression (fst (Visualizer.xRange st)) (snd (Visualizer.xRange st))
                  (Visualizer.stepX st) xs ->
      progression (fst (Visualizer.yRange st)) (snd (Visualizer.yRange st))
                  (Visualizer.stepY st) ys ->
      (List.length xs < fuel)%nat -> (List.length ys < fuel)%nat ->
      Visualizer.drawSlopeField st evaluate fuel
      = Some (grid (Visualizer.compiled evaluate (Visualizer.equation st)) xs ys)
      /\ List.length
           (grid (Visualizer.compiled evaluate (Visualizer.equation st)) xs ys)
         = (List.length xs * List.length ys)%nat)
  /\ (forall (st : Visualizer.state) (fuel : nat) (segments : list (float * float * float)),
      Visualizer.drawSlopeField st evaluate fuel = Some segments ->
      exists xs ys,
        segments = grid (Visualizer.compiled evaluate (Visualizer.equation st)) xs ys
        /\ progression (fst (Visualizer.xRange st)) (snd (Visualizer.xRange st))
                       (Visualizer.stepX st) xs
        /\ (xs = []
            \/ progression (fst (Visualizer.yRange st)) (snd (Visualizer.yRange st))
                           (Visualizer.stepY st) ys))
  /\ (forall (st : Visualizer.state) (d : nat),
      Visualizer.xRange st = (-4, 4) ->
      Visualizer.yRange st = (-3, 3) ->
      Visualizer.gridDensity st = density d ->
      (10 <= d <= 40)%nat ->
      exists xs ys,
        (forall fuel, (d + 1 < fuel)%nat ->
           Visualizer.drawSlopeField st evaluate fuel
           = Some (grid (Visualizer.compiled evaluate (Visualizer.equation st))
                        xs ys))
        /\ hd_error xs = Some (-4) /\ hd_error ys = Some (-3)
        /\ (List.length xs = d \/ List.length xs = S d)
        /\ (List.length ys = d \/ List.length ys = S d)
        /\ (d = 10%nat -> List.length xs = 11%nat /\ List.length ys = 10%nat)
        /\ (d = 17%nat -> List.length xs = 17%nat /\ List.length ys = 17%nat)
        /\ (d = 20%nat ->
            List.length xs = 21%nat /\ List.length ys = 21%nat
            /\ ~ In 4 xs /\ ~ In 3 ys)
        /\ (d = 40%nat -> List.length xs = 40%nat /\ List.length ys = 41%nat))
  /\ ((forall x y, evaluate "x+y"%string x y = Normal (x + y)) ->
      let xs := [-4; 0; 4] in
      let ys := [-3; 0; 3] in
      Visualizer.drawSlopeField view2 evaluate 4
      = Some (grid (fun x y => x + y) xs ys)
      /\ List.length (grid (fun x y => x + y) xs ys) = 9%nat
      /\ nth_error (grid (fun x y => x + y) xs ys) 4 = Some (0, 0, 0 + 0)).
Proof.
  split; [|split; [|split]].
  - intros st xs ys fuel Hx Hy Hfx Hfy.
    split; [now apply drawSlopeField_progressions|apply grid_length].
  - intros st fuel segments H. rewrite drawSlopeField_grid in H.
    destruct (axis fuel (snd (Visualizer.xRange st)) _ _) as [xs|] eqn:Ex;
      [|discriminate].
    apply axis_spec in Ex.
    destruct xs as [|x xs].
    + injection H as <-. exists [], []. split; [reflexivity|]. split; [exact Ex|now left].
    + destruct (axis fuel (snd (Visualizer.yRange st)) _ _) as [ys|] eqn:Ey;
        [|discriminate].
      apply axis_spec in Ey. injection H as <-.
      exists (x :: xs), ys. split; [reflexivity|]. split; [exact Ex|now right].
  - intros [e xr yr g curves counter] d Hxr Hyr Hg Hd.
    cbn [Visualizer.xRange Visualizer.yRange Visualizer.gridDensity] in Hxr, Hyr, Hg.
    subst xr yr g.
    destruct (default_axes d Hd) as (xs & ys & Ex & Ey & Lx & Ly).
    pose proof (axis_spec _ _ _ _ _ Ex) as Px.
    pose proof (axis_spec _ _ _ _ _ Ey) as Py.
    exists xs, ys. split; [|split; [|split; [|split; [|split]]]].
    + intros fuel Hf. apply drawSlopeField_progressions;
        [exact Px|exact Py|lia|lia].
    + apply (progression_head _ _ _ _ Px). intros ->. cbn in Lx. lia.
    + apply (progression_head _ _ _ _ Py). intros ->. cbn in Ly. lia.
    + exact Lx.
    + exact Ly.
    + clear Px Py Lx Ly Hd.
      split; [|split; [|split]]; intros ->; vm_compute in Ex, Ey;
        injection Ex as <-; injection Ey as <-;
        repeat match goal with |- _ /\ _ => split end;
        try reflexivity;
        intros H; apply In_existsb in H; vm_compute in H; discriminate.
  - intros H xs ys. split; [|split; reflexivity].
    rewrite drawSlopeField_grid.
    replace (axis 4 (snd (Visualizer.xRange view2)) (Visualizer.stepX view2)
                  (fst (Visualizer.xRange view2)))
      with (Some xs) by (vm_compute; reflexivity).
    replace (axis 4 (snd (Visualizer.yRange view2)) (Visualizer.stepY view2)
                  (fst (Visualizer.yRange view2)))
      with (Some ys) by (vm_compute; reflexivity).
    transitivity
      (Some (grid (Visualizer.compiled evaluate (Visualizer.equation view2)) xs ys));
      [reflexivity|].
    f_equal. change (Visualizer.equation view2) with "dy/dx = x+y"%string.
    rewrite (grid_ext _ _ xs ys (compiled_sum evaluate H)).
    vm_compute. reflexivity.
Qed.

Lemma field_is_grid_of_progressions_witness :
  (exists xs ys,
      Visualizer.drawSlopeField Visualizer.initial ReferenceEvaluator.evaluate 22
      = Some (grid (Visualizer.compiled ReferenceEvaluator.evaluate "dy/dx = x + y")
                   xs ys)
      /\ List.length xs = 21%nat /\ List.length ys = 21%nat
      /\ ~ In 4 xs /\ ~ In 3 ys)
  /\ Visualizer.drawSlopeField view2 ReferenceEvaluator.evaluate 4
     = Some (grid (fun x y => x + y) [-4; 0; 4] [-3; 0; 3])
  /\ (Visualizer.drawSlopeField view2 ReferenceEvaluator.evaluate 7
      = Some (grid (Visualizer.compiled ReferenceEvaluator.evaluate
                                        (Visualizer.equation view2))
                   [-4; 0; 4] [-3; 0; 3])
      /\ List.length
           (grid (Visualizer.compiled ReferenceEvaluator.evaluate
                                      (Visualizer.equation view2))
                 [-4; 0; 4] [-3; 0; 3])
         = (3 * 3)%nat).
Proof.
  destruct (field_is_grid_of_progressions ReferenceEvaluator.evaluate)
    as (H1 & _ & H3 & H4).
  split; [|split].
  - assert (Hd : (10 <= 20 <= 40)%nat) by lia.
    destruct (H3 Visualizer.initial 20%nat eq_refl eq_refl eq_refl Hd)
      as (xs & ys & Hf & _ & _ & _ & _ & _ & _ & H20 & _).
    exists xs, ys. split; [apply Hf; lia|].
    apply H20. reflexivity.
  - apply H4. intros x y. reflexivity.
  - apply (H1 view2 [-4; 0; 4] [-3; 0; 3] 7%nat);
      [split; [reflexivity|split; [repeat constructor|reflexivity]]
      |split; [reflexivity|split; [repeat constructor|reflexivity]]
      |cbn [List.length]; lia
      |cbn [List.length]; lia].
Defined.

(** ** Curves seeded by a click *)

Lemma same_point_refl (p : point) : same_point p p = true.
Proof.
  unfold same_point. apply andb_true_iff.
  split; apply FloatAxioms.Leibniz.eqb_spec; reflexivity.
Qed.

Lemma occurrences_app (s : point) (l1 l2 : list point) :
  occurrences s (l1 ++ l2) = (occurrences s l1 + occurrences s l2)%nat.
Proof. unfold occurrences. now rewrite filter_app, length_app. Qed.

Lemma occurrences_rev (s : point) (l : list point) :
  occurrences s (rev l) = occurrences s l.
Proof. unfold occurrences. now rewrite filter_rev, length_rev. Qed.

Lemma occurrences_absent (s : point) (l : list point) :
  (forall p, In p l -> same_point s p = false) -> occurrences s l = 0%nat.
Proof.
  unfold occurrences. induction l as [|a l IH]; intros H; [reflexivity|].
  cbn [filter]. rewrite (H a (or_introl eq_refl)).
  apply IH. intros p Hp. apply H. now right.
Qed.

Section SeededRuns.
Variable st : Visualizer.state.
Variable f : float -> float -> float.

(** The abscissa of the point pushed by the iteration of index [k] is the
    seed's abscissa after [k + 1] additions of the step. *)
Lemma run_from_abscissa (n : nat) :
  forall h x y k p,
    nth_error (Box.run_from st n f h x y) k = Some p ->
    fst p = add_n (S k) h x /\ (k < n)%nat.
Proof.
  induction n as [|n IH]; intros h x y k p H.
  - destruct k; discriminate.
  - rewrite run_from_S in H.
    destruct (Visualizer.outOfRange st x y); [destruct k; discriminate|].
    destruct (negb (Box.stagesFinite f h x y)); [destruct k; discriminate|].
    destruct (negb _ || negb _); [destruct k; discriminate|].
    destruct k as [|k]; cbn [nth_error] in H.
    + injection H as <-. split; [reflexivity|apply Nat.lt_0_succ].
    + apply IH in H. destruct H as [H1 H2]. split.
      * rewrite H1. apply add_n_shift.
      * now apply -> Nat.succ_lt_mono.
Qed.

Lemma run_from_without_seed (n : nat) (h x y : float) :
  leaves n h x = true -> occurrences (x, y) (Box.run_from st n f h x y) = 0%nat.
Proof.
  intros Hl. apply occurrences_absent. intros p Hp.
  apply In_nth_error in Hp. destruct Hp as [k Hk].
  apply run_from_abscissa in Hk. destruct Hk as [Hx Hk].
  unfold leaves in Hl. rewrite forallb_forall in Hl.
  specialize (Hl (S k)). rewrite in_seq in Hl.
  assert (Hin : (1 <= S k < 1 + n)%nat) by (split; [apply le_n_S, Nat.le_0_l|apply le_n_S, Hk]).
  apply Hl in Hin. apply negb_true_iff in Hin.
  unfold same_point. cbn [fst snd]. rewrite Hx, Hin. reflexivity.
Qed.
End SeededRuns.

(** The splice of two runs that start with the same seed [s]. *)
Lemma splice_trimmed (s : point) (B : list point) :
  removelast (rev (s :: B)) = rev B.
Proof. cbn [rev]. apply removelast_last. Qed.

Lemma splice_index (s : point) (B F : list point) :
  nth_error (rev B ++ s :: F) (List.length (rev B)) = Some s.
Proof.
  rewrite nth_error_app2 by apply Nat.le_refl. now rewrite Nat.sub_diag.
Qed.

Lemma splice_occurrences (s : point) (B F : list point) :
  occurrences s B = 0%nat -> occurrences s F = 0%nat ->
  occurrences s (rev B ++ s :: F) = 1%nat.
Proof.
  intros HB HF. rewrite occurrences_app, occurrences_rev, HB.
  unfold occurrences in *. cbn [filter]. rewrite same_point_refl.
  cbn [List.length]. now rewrite HF.
Qed.

(** C6, counterexample: in the view [-1e17, 1e17] x [-3, 3] on [dy/dx = 0],
    the seed (1e16, 0) lies strictly inside the rectangle, but a step of 0.05
    is absorbed by the rounding of 1e16 + 0.05: all the 200 points of each
    run are the seed again, and the merged trajectory contains it 401
    times. *)
Lemma absorbed_steps_repeat_the_seed :
  Box.strictly_inside wide_view (1e16, 0) = true
  /\ occurrences (1e16, 0)
                 (Visualizer.allPoints wide_view ReferenceEvaluator.evaluate 1e16 0)
     = 401%nat.
Proof. split; vm_compute; reflexivity. Qed.

(** C6 (as amended): each of the two runs of [addSolutionCurve] starts with
    the seed; the merged trajectory is the backward run reversed and trimmed
    of its last element, followed by the forward run, and it holds the seed
    at the index equal to the length of the trimmed backward run; the seed
    occurs exactly once in it provided no sum x0 + h + ... + h of up to
    [maxSteps] steps, h = 0.05 or -0.05, gives x0 back (it does when the
    rounding absorbs the step). *)
Theorem merged_curve_seed (st : Visualizer.state) (evaluate : evaluator) (x0 y0 : float) :
  let f := Visualizer.compiled evaluate (Visualizer.equation st) in
  let forwardPoints := Visualizer.generateSolutionCurve st f x0 y0 1 in
  let backwardPoints := Visualizer.generateSolutionCurve st f x0 y0 (-1) in
  let trimmed := removelast (rev backwardPoints) in
  hd_error forwardPoints = Some (x0, y0)
  /\ hd_error backwardPoints = Some (x0, y0)
  /\ Visualizer.allPoints st evaluate x0 y0 = trimmed ++ forwardPoints
  /\ nth_error (Visualizer.allPoints st evaluate x0 y0) (List.length trimmed)
     = Some (x0, y0)
  /\ (leaves Visualizer.maxSteps (0.05 * 1) x0 = true ->
      leaves Visualizer.maxSteps (0.05 * -1) x0 = true ->
      occurrences (x0, y0) (Visualizer.allPoints st evaluate x0 y0) = 1%nat).
Proof.
  intros f forwardPoints backwardPoints trimmed.
  subst trimmed forwardPoints backwardPoints.
  unfold Visualizer.allPoints. cbv zeta. fold f.
  rewrite !generateSolutionCurve_run_from.
  pose proof (run_from_without_seed st f Visualizer.maxSteps (0.05 * 1) x0 y0) as HF.
  pose proof (run_from_without_seed st f Visualizer.maxSteps (0.05 * -1) x0 y0) as HB.
  revert HF HB.
  generalize (Box.run_from st Visualizer.maxSteps f (0.05 * 1) x0 y0).
  generalize (Box.run_from st Visualizer.maxSteps f (0.05 * -1) x0 y0).
  intros B F HF HB. rewrite splice_trimmed.
  repeat split.
  - apply splice_index.
  - intros Hf Hb. apply splice_occurrences; auto.
Qed.

Lemma merged_curve_seed_witness :
  occurrences (0, 1)
              (Visualizer.allPoints Visualizer.initial ReferenceEvaluator.evaluate 0 1)
  = 1%nat.
Proof.
  apply (merged_curve_seed Visualizer.initial ReferenceEvaluator.evaluate 0 1);
    vm_compute; reflexivity.
Defined.

(** ** The bounded-interval integrator *)

Lemma ltb_true_not_nan (a b : float) :
  (a <? b) = true -> is_nan a = false /\ is_nan b = false.
Proof.
  rewrite ltb_spec. unfold SFltb. intros H.
  split.
  - destruct (is_nan a) eqn:E; [|reflexivity].
    apply Prim2SF_nan in E. rewrite E in H. discriminate.
  - destruct (is_nan b) eqn:E; [|reflexivity].
    apply Prim2SF_nan in E. rewrite E in H.
    destruct (Prim2SF a); discriminate.
Qed.

Lemma rk4_while_S (fuel : nat) (f : float -> float -> completion float)
      (h xEnd x y : float) (points : list point) :
  Solver.rk4_while (S fuel) f h xEnd x y points
  = if x <? xEnd then
      match Solver.rk4_body f h x y with
      | Normal p => Solver.rk4_while fuel f h xEnd (fst p) (snd p) (points ++ [p])
      | Throw e => Some (Throw e)
      end
    else Some (Normal points).
Proof. reflexivity. Qed.

(** More fuel does not change the result of a run that returned. *)
Lemma rk4_while_more_fuel (f : float -> float -> completion float)
      (h xEnd : float) (fuel : nat) :
  forall x y points r,
    Solver.rk4_while fuel f h xEnd x y points = Some r ->
    forall fuel', (fuel <= fuel')%nat ->
                  Solver.rk4_while fuel' f h xEnd x y points = Some r.
Proof.
  induction fuel as [|fuel IH]; intros x y points r H fuel' Hle; [discriminate|].
  destruct fuel' as [|fuel']; [inversion Hle|].
  rewrite rk4_while_S in *.
  destruct (x <? xEnd); [|exact H].
  destruct (Solver.rk4_body f h x y) as [p|e]; [|exact H].
  apply (IH _ _ _ _ H). now apply Nat.succ_le_mono.
Qed.

Section IntervalIntegrator.
Variable f : float -> float -> completion float.
Hypothesis f_returns : forall x y, exists v, f x y = Normal v.

(** When the slope function returns, the body of the loop advances the
    abscissa by one floating-point addition of the step. *)
Lemma rk4_body_returns (h x y : float) :
  exists y', Solver.rk4_body f h x y = Normal (x + h, y').
Proof.
  unfold Solver.rk4_body.
  destruct (f_returns x y) as [s1 E1]. rewrite E1. cbn [bind].
  destruct (f_returns (x + h / 2) (y + h * s1 / 2)) as [s2 E2].
  rewrite E2. cbn [bind].
  destruct (f_returns (x + h / 2) (y + h * s2 / 2)) as [s3 E3].
  rewrite E3. cbn [bind].
  destruct (f_returns (x + h) (y + h * s3)) as [s4 E4].
  rewrite E4. cbn [bind].
  eexists. reflexivity.
Qed.

(** The loop exits at the first sum x + h + ... + h that is not below
    [xEnd], having pushed one point per sum. *)
Lemma rk4_while_exit (h xEnd : float) (n : nat) :
  forall fuel x y points,
    (forall k, (k < n)%nat -> (add_n k h x <? xEnd) = true) ->
    (add_n n h x <? xEnd) = false ->
    (n < fuel)%nat ->
    exists pushed,
      Solver.rk4_while fuel f h xEnd x y points = Some (Normal (points ++ pushed))
      /\ map fst pushed = map (fun k => add_n k h x) (seq 1 n).
Proof.
  induction n as [|n IH]; intros fuel x y points Hlt Hge Hfuel;
    (destruct fuel as [|fuel]; [inversion Hfuel|]); rewrite rk4_while_S.
  - change (add_n 0 h x) with x in Hge. rewrite Hge.
    exists []. now rewrite app_nil_r.
  - pose proof (Hlt 0%nat (Nat.lt_0_succ n)) as H0.
    change (add_n 0 h x) with x in H0. rewrite H0.
    destruct (rk4_body_returns h x y) as [y' E]. rewrite E. cbn [fst snd].
    destruct (IH fuel (x + h) y' (points ++ [(x + h, y')])) as (pushed & H1 & H2).
    + intros k Hk. rewrite add_n_shift. apply Hlt. now apply -> Nat.succ_lt_mono.
    + now rewrite add_n_shift.
    + now apply Nat.succ_lt_mono.
    + exists ((x + h, y') :: pushed). split.
      * rewrite H1, <- app_assoc. reflexivity.
      * cbn [map seq fst]. f_equal.
        rewrite H2, <- (seq_shift n 1), map_map.
        apply map_ext. intros k. apply add_n_shift.
Qed.
End IntervalIntegrator.

(** C10, counterexample: with x0 = 1e16 < xEnd = 2e16 and h = 0.1 > 0 the
    step is absorbed by the rounding (1e16 + 0.1 is 1e16), the abscissa never
    moves and the loop never exits: there is no last point.  And where the
    run does return, the last abscissa need not be below xEnd + h: with
    x0 = 1.5, xEnd = 1.6 and h = 2^53 it is 2^53 + 2, which is also the value
    of xEnd + h. *)
Lemma absorbed_step_never_reaches_xEnd :
  (0 <? 0.1) = true /\ (1e16 <? 2e16) = true
  /\ (forall fuel : nat,
         Solver.rungeKutta4 fuel (fun _ _ => Normal 0) 1e16 0 0.1 2e16 = None)
  /\ Solver.rungeKutta4 3 (fun _ _ => Normal 0) 1.5 0 9007199254740992 1.6
     = Some (Normal [(1.5, 0); (9007199254740994, 0)])
  /\ (9007199254740994 <? 1.6 + 9007199254740992) = false.
Proof.
  split; [reflexivity|]. split; [reflexivity|].
  split; [|split; vm_compute; reflexivity].
  unfold Solver.rungeKutta4. generalize [(1e16, 0)].
  intros points fuel. revert points.
  induction fuel as [|fuel IH]; intros points; [reflexivity|].
  rewrite rk4_while_S.
  replace (1e16 <? 2e16) with true by reflexivity.
  replace (Solver.rk4_body (fun _ _ => Normal 0) 0.1 1e16 0)
    with (@Normal (float * float) (1e16, 0)) by (vm_compute; reflexivity).
  apply IH.
Qed.

(** C10 (as amended): if x0 >= xEnd the returned trajectory is exactly the
    seed.  If x0 < xEnd, the slope function returns at every query, and
    n + 1 is the first number of floating-point additions of h to x0 whose
    sum is not below xEnd, then the run returns n + 2 points whose abscissas
    are x0, x0 + h, (x0 + h) + h, ...: the last one is the sum of h and of
    the previous abscissa, which is below xEnd, and it is at least xEnd when
    it is a number.  When no sum reaches xEnd the loop does not exit, and the
    last abscissa need not be below xEnd + h. *)
Theorem rungeKutta4_interval (f : float -> float -> completion float)
        (x0 y0 h xEnd : float) :
  ((xEnd <=? x0) = true ->
   forall fuel : nat,
     Solver.rungeKutta4 (S fuel) f x0 y0 h xEnd = Some (Normal [(x0, y0)]))
  /\ ((forall x y, exists v, f x y = Normal v) ->
      forall n : nat,
        (forall k, (k <= n)%nat -> (add_n k h x0 <? xEnd) = true) ->
        (add_n (S n) h x0 <? xEnd) = false ->
        exists pts,
          (forall fuel : nat,
              (S n < fuel)%nat ->
              Solver.rungeKutta4 fuel f x0 y0 h xEnd = Some (Normal pts))
          /\ map fst pts = map (fun k => add_n k h x0) (seq 0 (S (S n)))
          /\ add_n (S n) h x0 = add_n n h x0 + h
          /\ (add_n n h x0 <? xEnd) = true
          /\ (is_nan (add_n (S n) h x0) = false ->
              (xEnd <=? add_n (S n) h x0) = true)).
Proof.
  split.
  - intros H fuel. unfold Solver.rungeKutta4. rewrite rk4_while_S.
    now rewrite (leb_ltb_false _ _ H).
  - intros Hf n Hlt Hge.
    assert (Hlt' : forall k, (k < S n)%nat -> (add_n k h x0 <? xEnd) = true).
    { intros k Hk. apply Hlt. now apply Nat.lt_succ_r. }
    destruct (rk4_while_exit f Hf h xEnd (S n) (S (S n)) x0 y0 [(x0, y0)]
                             Hlt' Hge (Nat.lt_succ_diag_r _))
      as (pushed & Hrun & Hx).
    exists ((x0, y0) :: pushed). repeat split.
    + intros fuel Hfuel. unfold Solver.rungeKutta4.
      exact (rk4_while_more_fuel f h xEnd _ _ _ _ _ Hrun fuel Hfuel).
    + cbn [map fst]. rewrite Hx. reflexivity.
    + apply Hlt, Nat.le_refl.
    + intros Hnan. apply ltb_false_leb; [exact Hge|exact Hnan|].
      exact (proj2 (ltb_true_not_nan _ _ (Hlt 0%nat (Nat.le_0_l n)))).
Qed.

Lemma rungeKutta4_interval_witness :
  exists pts,
    (forall fuel : nat,
        (20 < fuel)%nat ->
        Solver.rungeKutta4 fuel (fun x y => Normal (x + y)) 0 1 0.1 2
        = Some (Normal pts))
    /\ map fst pts = map (fun k => add_n k 0.1 0) (seq 0 21)
    /\ add_n 20 0.1 0 = add_n 19 0.1 0 + 0.1
    /\ (add_n 19 0.1 0 <? 2) = true
    /\ (is_nan (add_n 20 0.1 0) = false -> (2 <=? add_n 20 0.1 0) = true).
Proof.
  apply (proj2 (rungeKutta4_interval (fun x y => Normal (x + y)) 0 1 0.1 2)).
  - intros x y. eexists. reflexivity.
  - intros k Hk.
    do 20 (destruct k as [|k]; [vm_compute; reflexivity|]).
    lia.
  - vm_compute. reflexivity.
Defined.

(** ** The solver session *)

(** C7: the code at the failing input.  When the equation is not blank,
    x0 < xEnd and the evaluator throws [e] at the first query (a malformed
    equation such as [dy/dx = x +] does), [solveEquation] ends with a step
    log made of the single error step that carries the message of [e], and
    with [isLoading] reset; but [solution] is left as it was before the call,
    so the trajectory of an earlier successful solve stays in place instead
    of being emptied. *)
Theorem failed_solve_keeps_previous_solution
        (evaluate : evaluator) (toString : float -> string)
        (st : Solver.state) (fuel : nat) (e : thrown) :
  blank (Solver.equation st) = false ->
  (Solver.initialX st <? Solver.xEnd st) = true ->
  evaluate (processedEq (Solver.equation st)) (Solver.initialX st) (Solver.initialY st)
  = Throw e ->
  exists st',
    Solver.solveEquation evaluate toString (S fuel) st = Some st'
    /\ Solver.solutionSteps st' = [Solver.errorStep e]
    /\ Solver.solution st' = Solver.solution st
    /\ Solver.isLoading st' = false.
Proof.
  intros Hblank Hlt Hthrow.
  unfold Solver.solveEquation. rewrite Hblank. cbv zeta.
  unfold Solver.rungeKutta4. rewrite rk4_while_S.
  cbn [Solver.set_solutionSteps Solver.set_isLoading Solver.equation
       Solver.initialX Solver.initialY Solver.xEnd Solver.stepSize].
  rewrite Hlt.
  unfold Solver.rk4_body, Solver.parseEquation, outcome. cbn [snd].
  rewrite Hthrow. cbn [bind].
  eexists. split; [reflexivity|]. repeat split.
Qed.

Lemma failed_solve_keeps_previous_solution_witness :
  exists st',
    Solver.solveEquation ReferenceEvaluator.evaluate (fun _ => ""%string) 1
                         edited_solver = Some st'
    /\ Solver.solutionSteps st'
       = [Solver.mkStep "错误" "求解失败" (Some "Unexpected end of expression"%string)]
    /\ Solver.solution st' = [(0, 1); (0.1, 1.1103416666666668)]
    /\ Solver.isLoading st' = false.
Proof.
  apply (failed_solve_keeps_previous_solution
           ReferenceEvaluator.evaluate (fun _ => ""%string) edited_solver 0
           (ErrorObject "Unexpected end of expression"));
    vm_compute; reflexivity.
Defined.

(** * Further properties of the components *)

(** ** The text handed to the evaluator *)

Lemma prefix_split (p s : string) :
  prefix p s = true <-> exists b, s = (p ++ b)%string.
Proof.
  revert s. induction p as [|a p IH]; intros s; simpl.
  - split; [intros _; now exists s|intros _; now destruct s].
  - destruct s as [|c s]; simpl;
      [split; [discriminate|intros [b H]; discriminate]|].
    destruct (ascii_dec a c) as [->|n].
    + rewrite IH. split; intros [b H]; exists b; [now rewrite H|now injection H].
    + split; [discriminate|]. intros [b H]. injection H as H1 H2. now destruct n.
Qed.

(** [includes] is the substring test. *)
Lemma includes_split (s pat : string) :
  includes s pat = true <-> exists a b, s = (a ++ pat ++ b)%string.
Proof.
  induction s as [|c s IH]; cbn [includes].
  - rewrite orb_false_r, prefix_split. split.
    + intros [b H]. now exists EmptyString, b.
    + intros (a & b & H). destruct a as [|c a]; [now exists b|discriminate].
  - rewrite orb_true_iff, prefix_split, IH. split.
    + intros [[b H]|(a & b & H)].
      * now exists EmptyString, b.
      * exists (String c a), b. now rewrite H.
    + intros (a & b & H). destruct a as [|c' a].
      * left. now exists b.
      * right. injection H as _ H. now exists a, b.
Qed.




Lemma strip_marker_unfold (s : string) :
  strip_marker s
  = match match_marker s with
    | Some rest => rest
    | None =>
        match s with
        | EmptyString => EmptyString
        | String c r => String c (strip_marker r)
        end
    end.
Proof. destruct s; reflexivity. Qed.

(** One character of the marker. *)
Ltac marker_char H s :=
  let c := fresh "c" in
  destruct s as [|c s]; [discriminate H|];
  destruct c as [[] [] [] [] [] [] [] []]; try discriminate H.

Lemma match_marker_head (s r : string) :
  match_marker s = Some r -> exists t, s = ("dy/dx" ++ t)%string.
Proof.
  intros H.
  marker_char H s. marker_char H s. marker_char H s.
  marker_char H s. marker_char H s.
  now exists s.
Qed.

Lemma strip_marker_without_marker (s : string) :
  includes s "dy/dx" = false -> strip_marker s = s.
Proof.
  induction s as [|c s IH]; intros H; [reflexivity|].
  cbn [includes] in H. apply orb_false_iff in H. destruct H as [Hp Hi].
  rewrite strip_marker_unfold.
  destruct (match_marker (String c s)) as [rest|] eqn:E.
  - apply match_marker_head in E.
    apply prefix_split in E. congruence.
  - now rewrite IH.
Qed.

Lemma caret_to_power_without_carets (s : string) :
  includes s "^" = false -> caret_to_power s = s.
Proof.
  induction s as [|c s IH]; intros H; [reflexivity|].
  cbn [includes] in H. apply orb_false_iff in H. destruct H as [Hp Hi].
  cbn [caret_to_power]. destruct (Ascii.eqb c "^") eqn:E.
  - apply Ascii.eqb_eq in E. subst c.
    assert (Ht : prefix "^" (String "^" s) = true)
      by (apply prefix_split; now exists s).
    congruence.
  - now rewrite IH.
Qed.

(** X2: an equation that does not contain the marker [dy/dx] is taken as
    the expression itself: only its carets are rewritten, and without any
    caret it reaches the evaluator unchanged. *)
Theorem equation_without_marker (eqStr : string) :
  includes eqStr "dy/dx" = false ->
  processedEq eqStr = caret_to_power eqStr
  /\ (includes eqStr "^" = false -> processedEq eqStr = eqStr).
Proof.
  intros H. unfold processedEq. rewrite (strip_marker_without_marker _ H).
  split; [reflexivity|apply caret_to_power_without_carets].
Qed.

Lemma equation_without_marker_witness :
  processedEq "sin(x)^2 - y" = "sin(x)**2 - y"%string
  /\ processedEq "y/x" = "y/x"%string.
Proof.
  split.
  - apply (proj1 (equation_without_marker "sin(x)^2 - y" eq_refl)).
  - apply (proj2 (equation_without_marker "y/x" eq_refl)). reflexivity.
Defined.

Lemma skip_spaces_spaces (n : nat) (s : string) :
  skip_spaces (spaces n ++ s) = skip_spaces s.
Proof. induction n as [|n IH]; [reflexivity|exact IH]. Qed.

Lemma skip_spaces_equals_sign (r : string) :
  skip_spaces (String "=" r) = String "=" r.
Proof. destruct r as [|c2 [|c3 r]]; reflexivity. Qed.

(** X3: the marker at the head of an equation is removed whatever the
    number of spaces around its [=] sign, together with the white space that
    follows it: what reaches the evaluator is the rest of the text, carets
    rewritten. *)
Theorem marker_is_stripped (n m : nat) (e : string) :
  processedEq ("dy/dx" ++ spaces n ++ "=" ++ spaces m ++ e)
  = caret_to_power (skip_spaces e).
Proof.
  unfold processedEq. f_equal.
  rewrite strip_marker_unfold.
  change (match_marker ("dy/dx" ++ spaces n ++ "=" ++ spaces m ++ e))
    with (match skip_spaces (spaces n ++ "=" ++ spaces m ++ e) with
          | String "=" r' => Some (skip_spaces r')
          | _ => None
          end).
  rewrite skip_spaces_spaces.
  change ("=" ++ spaces m ++ e)%string with (String "=" (spaces m ++ e)).
  rewrite skip_spaces_equals_sign, skip_spaces_spaces. reflexivity.
Qed.

(** X4: a query of the visualisation closure skips the evaluator exactly
    when |y| < 1e-10 and the expression text contains [/y], or |x| < 1e-10
    and it contains [/x]; every other query invokes the evaluator exactly
    once, on the expression text and the coordinates of the query. *)
Theorem evaluator_skipped_iff (evaluate : evaluator) (eqStr : string) (x y : float) :
  (calls (Visualizer.parseEquation evaluate eqStr x y) = []
   <-> ((Math_abs y <? 1e-10) = true
        /\ exists a b, processedEq eqStr = (a ++ "/y" ++ b)%string)
       \/ ((Math_abs x <? 1e-10) = true
           /\ exists a b, processedEq eqStr = (a ++ "/x" ++ b)%string))
  /\ (calls (Visualizer.parseEquation evaluate eqStr x y) = []
      \/ calls (Visualizer.parseEquation evaluate eqStr x y)
         = [(processedEq eqStr, x, y)]).
Proof.
  rewrite <- !includes_split.
  unfold Visualizer.parseEquation, calls. cbv zeta.
  destruct (Math_abs y <? 1e-10), (Math_abs x <? 1e-10),
    (includes (processedEq eqStr) "/y"), (includes (processedEq eqStr) "/x");
    cbn [andb fst]; (split; [split|]); intros; auto;
    try discriminate;
    repeat match goal with
           | H : _ \/ _ |- _ => destruct H
           | H : _ /\ _ |- _ => destruct H
           end; discriminate.
Qed.

(** ** Runs of the bounded-interval integrator *)

Section IntervalRuns.
Variable f : float -> float -> completion float.
Variables h xEnd : float.

(** A pass through the loop body either returns the point one step to the
    right, or throws what [f] threw at one of its four queries. *)
Lemma rk4_body_cases (x y : float) :
  (exists y', Solver.rk4_body f h x y = Normal (x + h, y'))
  \/ (exists e u v, Solver.rk4_body f h x y = Throw e /\ f u v = Throw e).
Proof.
  unfold Solver.rk4_body.
  destruct (f x y) as [s1|e] eqn:E1; cbn [bind]; [|right; eauto].
  destruct (f (x + h / 2) (y + h * s1 / 2)) as [s2|e] eqn:E2; cbn [bind];
    [|right; eauto].
  destruct (f (x + h / 2) (y + h * s2 / 2)) as [s3|e] eqn:E3; cbn [bind];
    [|right; eauto].
  destruct (f (x + h) (y + h * s3)) as [s4|e] eqn:E4; cbn [bind];
    [|right; eauto].
  left. eauto.
Qed.

Lemma rk4_while_returned (fuel : nat) :
  forall x y points r,
    Solver.rk4_while fuel f h xEnd x y points = Some (Normal r) ->
    exists pushed,
      r = points ++ pushed
      /\ map fst pushed = map (fun k => add_n k h x) (seq 1 (List.length pushed))
      /\ (forall k, (k < List.length pushed)%nat -> (add_n k h x <? xEnd) = true)
      /\ (add_n (List.length pushed) h x <? xEnd) = false.
Proof.
  induction fuel as [|fuel IH]; intros x y points r H; [discriminate|].
  rewrite rk4_while_S in H. destruct (x <? xEnd) eqn:Hx.
  - destruct (rk4_body_cases x y) as [[y' E]|(e & u & v & E & _)];
      rewrite E in H; [|discriminate].
    cbn [fst snd] in H. apply IH in H.
    destruct H as (pushed & H1 & H2 & H3 & H4).
    exists ((x + h, y') :: pushed). repeat split.
    + rewrite H1, <- app_assoc. reflexivity.
    + cbn [map seq fst List.length]. f_equal.
      rewrite H2, <- (seq_shift _ 1), map_map.
      apply map_ext. intros k. apply add_n_shift.
    + intros k Hk. destruct k as [|k]; [exact Hx|].
      rewrite <- add_n_shift. apply H3.
      cbn [List.length] in Hk. now apply Nat.succ_lt_mono.
    + cbn [List.length]. rewrite <- add_n_shift. exact H4.
  - injection H as <-. exists []. rewrite app_nil_r. repeat split.
    + intros k Hk. inversion Hk.
    + exact Hx.
Qed.

Lemma rk4_while_thrown (fuel : nat) :
  forall x y points e,
    Solver.rk4_while fuel f h xEnd x y points = Some (Throw e) ->
    exists u v, f u v = Throw e.
Proof.
  induction fuel as [|fuel IH]; intros x y points e H; [discriminate|].
  rewrite rk4_while_S in H. destruct (x <? xEnd); [|discriminate].
  destruct (rk4_body_cases x y) as [[y' E]|(e' & u & v & E & Ef)];
    rewrite E in H.
  - exact (IH _ _ _ _ H).
  - injection H as <-. eauto.
Qed.

(** A run whose abscissa does not move never returns a trajectory. *)
Lemma rk4_while_stuck (fuel : nat) :
  forall x y points r,
    (x <? xEnd) = true -> x + h = x ->
    Solver.rk4_while fuel f h xEnd x y points <> Some (Normal r).
Proof.
  induction fuel as [|fuel IH]; intros x y points r Hx Hh; [discriminate|].
  rewrite rk4_while_S, Hx.
  destruct (rk4_body_cases x y) as [[y' E]|(e' & u & v & E & Ef)];
    rewrite E; [|discriminate].
  cbn [fst snd]. rewrite Hh. now apply IH.
Qed.
End IntervalRuns.

(** X5: a trajectory returned by [rungeKutta4] starts with the seed, its
    abscissas are x0, x0 + h, (x0 + h) + h, ... (one floating-point addition
    of the step per point), every abscissa but the last is below xEnd and
    the last one is not. *)
Theorem rungeKutta4_trajectory (f : float -> float -> completion float)
        (fuel : nat) (x0 y0 h xEnd : float) (pts : list (float * float)) :
  Solver.rungeKutta4 fuel f x0 y0 h xEnd = Some (Normal pts) ->
  hd_error pts = Some (x0, y0)
  /\ map fst pts = map (fun k => add_n k h x0) (seq 0 (List.length pts))
  /\ (forall k, (S k < List.length pts)%nat -> (add_n k h x0 <? xEnd) = true)
  /\ (add_n (List.length pts - 1) h x0 <? xEnd) = false.
Proof.
  unfold Solver.rungeKutta4. intros H.
  apply rk4_while_returned in H. destruct H as (pushed & -> & H2 & H3 & H4).
  cbn [app hd_error List.length seq map fst]. repeat split.
  - f_equal. exact H2.
  - intros k Hk. apply H3. now apply Nat.succ_lt_mono.
  - cbn [Nat.sub]. rewrite Nat.sub_0_r. exact H4.
Qed.

Lemma rungeKutta4_trajectory_witness :
  exists pts,
    Solver.rungeKutta4 22 (fun x y => ReferenceEvaluator.evaluate "x*y" x y)
                       0 1 0.1 2 = Some (Normal pts)
    /\ hd_error pts = Some (0, 1)
    /\ map fst pts = map (fun k => add_n k 0.1 0) (seq 0 (List.length pts)).
Proof.
  eexists. split; [vm_compute; reflexivity|].
  match goal with
  | |- hd_error ?l = _ /\ _ =>
      destruct (rungeKutta4_trajectory
                  (fun x y => ReferenceEvaluator.evaluate "x*y" x y)
                  22 0 1 0.1 2 l) as (H1 & H2 & _)
  end; [vm_compute; reflexivity|].
  split; assumption.
Defined.

(** X6: when the step is absorbed at the seed (x0 + h is x0 again: a step of
    0, or a step too small for the magnitude of x0) and x0 < xEnd, the
    abscissa never moves and [rungeKutta4] never returns a trajectory,
    whatever the number of iterations allowed; when moreover the slope
    function returns at every query, the loop never exits at all. *)
Theorem rungeKutta4_absorbed_step (f : float -> float -> completion float)
        (x0 y0 h xEnd : float) :
  (x0 <? xEnd) = true ->
  x0 + h = x0 ->
  (forall fuel pts, Solver.rungeKutta4 fuel f x0 y0 h xEnd <> Some (Normal pts))
  /\ ((forall x y, exists v, f x y = Normal v) ->
      forall fuel, Solver.rungeKutta4 fuel f x0 y0 h xEnd = None).
Proof.
  intros Hx Hh. split.
  - intros fuel pts. unfold Solver.rungeKutta4. now apply rk4_while_stuck.
  - intros Hf fuel.
    destruct (Solver.rungeKutta4 fuel f x0 y0 h xEnd) as [[pts|e]|] eqn:E;
      [| |reflexivity].
    + exfalso. revert E. unfold Solver.rungeKutta4. now apply rk4_while_stuck.
    + unfold Solver.rungeKutta4 in E. apply rk4_while_thrown in E.
      destruct E as (u & v & E). destruct (Hf u v) as [w Hw]. congruence.
Qed.

Lemma rungeKutta4_absorbed_step_witness :
  (0.5 <? 2) = true /\ 0.5 + 0 = 0.5
  /\ Solver.rungeKutta4 50 (fun x y => Normal (x + y)) 0.5 1 0 2 = None.
Proof.
  split; [reflexivity|]. split; [reflexivity|].
  apply (proj2 (rungeKutta4_absorbed_step (fun x y => Normal (x + y)) 0.5 1 0 2
                                           eq_refl eq_refl)).
  intros x y. eexists. reflexivity.
Defined.

(** ** Sessions of the solver *)

Section SolverSessions.
Variable evaluate : evaluator.
Variable toString : float -> string.

(** The cases of a call of [solveEquation]. *)
Lemma solveEquation_cases (fuel : nat) (st : Solver.state) :
  (blank (Solver.equation st) = true ->
   Solver.solveEquation evaluate toString fuel st = Some st)
  /\ (blank (Solver.equation st) = false ->
      forall st',
        Solver.solveEquation evaluate toString fuel st = Some st' ->
        (Solver.equation st' = Solver.equation st
         /\ Solver.initialX st' = Solver.initialX st
         /\ Solver.initialY st' = Solver.initialY st
         /\ Solver.xEnd st' = Solver.xEnd st
         /\ Solver.stepSize st' = Solver.stepSize st)
        /\ Solver.isLoading st' = false
        /\ ((Solver.rungeKutta4
                fuel
                (fun x y =>
                   outcome (Solver.parseEquation evaluate (Solver.equation st) x y))
                (Solver.initialX st) (Solver.initialY st)
                (Solver.stepSize st) (Solver.xEnd st)
              = Some (Normal (Solver.solution st'))
             /\ hd_error (Solver.solution st')
                = Some (Solver.initialX st, Solver.initialY st)
             /\ map Solver.step (Solver.solutionSteps st')
                = ["1"; "2"; "3"; "4"]%string
             /\ option_map Solver.result (nth_error (Solver.solutionSteps st') 3)
                = Some (Some (completion_text (List.length (Solver.solution st')))))
            \/ (exists e u v,
                   Solver.rungeKutta4
                     fuel
                     (fun x y =>
                        outcome (Solver.parseEquation evaluate (Solver.equation st) x y))
                     (Solver.initialX st) (Solver.initialY st)
                     (Solver.stepSize st) (Solver.xEnd st)
                   = Some (Throw e)
                   /\ evaluate (processedEq (Solver.equation st)) u v = Throw e
                   /\ Solver.solutionSteps st' = [Solver.errorStep e]
                   /\ Solver.solution st' = Solver.solution st)))
  /\ (blank (Solver.equation st) = false ->
      (Solver.solveEquation evaluate toString fuel st = None
       <-> Solver.rungeKutta4
             fuel
             (fun x y =>
                outcome (Solver.parseEquation evaluate (Solver.equation st) x y))
             (Solver.initialX st) (Solver.initialY st)
             (Solver.stepSize st) (Solver.xEnd st)
           = None)).
Proof.
  split; [|split]; intros Hb; unfold Solver.solveEquation; rewrite Hb;
    [reflexivity| |].
  - intros st'. cbv zeta.
    cbn [Solver.set_solutionSteps Solver.set_isLoading Solver.equation
         Solver.initialX Solver.initialY Solver.xEnd Solver.stepSize].
    destruct (Solver.rungeKutta4 fuel _ _ _ _ _) as [[pts|e]|] eqn:E;
      [| |discriminate]; intros H; injection H as <-.
    + split; [repeat split|]. split; [reflexivity|]. left.
      split; [reflexivity|].
      unfold Solver.rungeKutta4 in E. apply rk4_while_returned in E.
      destruct E as (pushed & -> & _). repeat split.
    + split; [repeat split|]. split; [reflexivity|]. right.
      unfold Solver.rungeKutta4 in E. apply rk4_while_thrown in E.
      destruct E as (u & v & E). exists e, u, v. repeat split. exact E.
  - cbv zeta.
    cbn [Solver.set_solutionSteps Solver.set_isLoading Solver.equation
         Solver.initialX Solver.initialY Solver.xEnd Solver.stepSize].
    destruct (Solver.rungeKutta4 fuel _ _ _ _ _) as [[pts|e]|];
      split; (discriminate || reflexivity).
Qed.

(** X7: the outcomes of [solveEquation].  On a blank equation it changes
    nothing.  Otherwise it returns exactly when [rungeKutta4], called on the
    closure of the equation with the four numeric inputs, returns or throws;
    the five inputs are then unchanged and the loading flag is reset, and
    either the integration returned: the trajectory on display is the very
    list of points that [rungeKutta4] returned, it starts with the seed, and
    the log has the four numbered steps, the last of which counts its
    points; or [rungeKutta4] threw what the evaluator threw at some query on
    the expression text: the log is the single error step for what it threw,
    and the trajectory on display is the previous one. *)
Theorem solveEquation_outcomes (fuel : nat) (st : Solver.state) :
  (blank (Solver.equation st) = true ->
   Solver.solveEquation evaluate toString fuel st = Some st)
  /\ (blank (Solver.equation st) = false ->
      forall st',
        Solver.solveEquation evaluate toString fuel st = Some st' ->
        (Solver.equation st' = Solver.equation st
         /\ Solver.initialX st' = Solver.initialX st
         /\ Solver.initialY st' = Solver.initialY st
         /\ Solver.xEnd st' = Solver.xEnd st
         /\ Solver.stepSize st' = Solver.stepSize st)
        /\ Solver.isLoading st' = false
        /\ ((Solver.rungeKutta4
                fuel
                (fun x y =>
                   outcome (Solver.parseEquation evaluate (Solver.equation st) x y))
                (Solver.initialX st) (Solver.initialY st)
                (Solver.stepSize st) (Solver.xEnd st)
              = Some (Normal (Solver.solution st'))
             /\ hd_error (Solver.solution st')
                = Some (Solver.initialX st, Solver.initialY st)
             /\ map Solver.step (Solver.solutionSteps st')
                = ["1"; "2"; "3"; "4"]%string
             /\ option_map Solver.result (nth_error (Solver.solutionSteps st') 3)
                = Some (Some (completion_text (List.length (Solver.solution st')))))
            \/ (exists e u v,
                   Solver.rungeKutta4
                     fuel
                     (fun x y =>
                        outcome (Solver.parseEquation evaluate (Solver.equation st) x y))
                     (Solver.initialX st) (Solver.initialY st)
                     (Solver.stepSize st) (Solver.xEnd st)
                   = Some (Throw e)
                   /\ evaluate (processedEq (Solver.equation st)) u v = Throw e
                   /\ Solver.solutionSteps st' = [Solver.errorStep e]
                   /\ Solver.solution st' = Solver.solution st)))
  /\ (blank (Solver.equation st) = false ->
      (Solver.solveEquation evaluate toString fuel st = None
       <-> Solver.rungeKutta4
             fuel
             (fun x y =>
                outcome (Solver.parseEquation evaluate (Solver.equation st) x y))
             (Solver.initialX st) (Solver.initialY st)
             (Solver.stepSize st) (Solver.xEnd st)
           = None)).
Proof. exact (solveEquation_cases fuel st). Qed.

Lemma solveEquation_settles (fuel : nat) (st st' : Solver.state) :
  settled st ->
  Solver.solveEquation evaluate toString fuel st = Some st' ->
  settled st'.
Proof.
  intros Hst H.
  destruct (blank (Solver.equation st)) eqn:Hb.
  - rewrite (proj1 (solveEquation_cases fuel st) Hb) in H.
    now injection H as <-.
  - destruct (proj1 (proj2 (solveEquation_cases fuel st)) Hb st' H)
      as (_ & Hl & [(_ & H1 & H2 & H3)|(e & u & v & _ & _ & H2 & _)]).
    + split; [exact Hl|]. right. right. repeat split; try assumption.
      intros Hn. rewrite Hn in H1. discriminate.
    + split; [exact Hl|]. right. left. now exists e.
Qed.

Lemma perform_settles (a : Solver.action) (st st' : Solver.state) :
  settled st -> Solver.perform evaluate toString a st = Some st' -> settled st'.
Proof.
  intros Hst H. destruct a as [e x y xe h|p|fuel]; cbn [Solver.perform] in H.
  - injection H as <-. exact Hst.
  - injection H as <-. exact Hst.
  - exact (solveEquation_settles fuel st st' Hst H).
Qed.

Lemma session_settles (actions : list Solver.action) :
  forall st st',
    settled st ->
    Solver.session evaluate toString actions st = Some st' -> settled st'.
Proof.
  induction actions as [|a actions IH]; intros st st' Hst H;
    cbn [Solver.session] in H.
  - now injection H as <-.
  - destruct (Solver.perform evaluate toString a st) as [st1|] eqn:E;
      [|discriminate].
    exact (IH st1 st' (perform_settles a st st1 Hst E) H).
Qed.

(** X8: after any sequence of edits of the inputs, loads of presets and
    solves that return, started from the component as mounted, the solver is
    at rest: the loading flag is off (the solve button is enabled), and the
    step log is empty, or a single error step, or the four numbered steps,
    in which case the trajectory on display is not empty and the count of the
    fourth step is its number of points. *)
Theorem solver_session_settled (actions : list Solver.action) (st' : Solver.state) :
  Solver.session evaluate toString actions Solver.initial = Some st' ->
  settled st'.
Proof.
  apply session_settles. split; [reflexivity|now left].
Qed.
End SolverSessions.

Lemma solveEquation_outcomes_witness :
  Solver.solveEquation ReferenceEvaluator.evaluate (fun _ => "?"%string) 22
                       (Solver.mkState "   " 0 1 2 0.1 [] [] false)
  = Some (Solver.mkState "   " 0 1 2 0.1 [] [] false)
  /\ (exists st',
         Solver.solveEquation ReferenceEvaluator.evaluate (fun _ => "?"%string) 1
                              edited_solver = Some st'
         /\ Solver.isLoading st' = false
         /\ Solver.solution st' = Solver.solution edited_solver).
Proof.
  split.
  - apply (proj1 (solveEquation_outcomes ReferenceEvaluator.evaluate
                                         (fun _ => "?"%string) 22 _)).
    reflexivity.
  - eexists. split; [vm_compute; reflexivity|].
    split; [|vm_compute; reflexivity].
    match goal with
    | |- Solver.isLoading ?s = _ =>
        apply (proj1 (proj2 (solveEquation_outcomes
                               ReferenceEvaluator.evaluate
                               (fun _ => "?"%string) 1 edited_solver))
                     eq_refl s)
    end.
    vm_compute; reflexivity.
Defined.

Lemma solver_session_settled_witness :
  exists st',
    Solver.session ReferenceEvaluator.evaluate (fun _ => "?"%string)
                   [Solver.Solve 22;
                    Solver.Edit "dy/dx = x +" 0 1 2 0.1;
                    Solver.Solve 1;
                    Solver.LoadPreset (Solver.mkPreset "齐次方程" "dy/dx = y/x" 1 1)]
                   Solver.initial = Some st'
    /\ settled st'.
Proof.
  eexists. split; [vm_compute; reflexivity|].
  apply (solver_session_settled
           ReferenceEvaluator.evaluate (fun _ => "?"%string)
           [Solver.Solve 22;
            Solver.Edit "dy/dx = x +" 0 1 2 0.1;
            Solver.Solve 1;
            Solver.LoadPreset (Solver.mkPreset "齐次方程" "dy/dx = y/x" 1 1)]).
  vm_compute. reflexivity.
Defined.

(** ** Runs of the bounded-box integrator *)

Section BoxRuns.
Variable st : Visualizer.state.
Variable f : float -> float -> float.

Lemma seeded_run_chain (n : nat) :
  forall h x y k p q,
    nth_error ((x, y) :: Box.run_from st n f h x y) k = Some p ->
    nth_error ((x, y) :: Box.run_from st n f h x y) (S k) = Some q ->
    q = Box.rk4_next f h (fst p) (snd p)
    /\ isFinite (fst q) = true /\ isFinite (snd q) = true
    /\ Visualizer.outOfRange st (fst p) (snd p) = false
    /\ Box.stagesFinite f h (fst p) (snd p) = true.
Proof.
  induction n as [|n IH]; intros h x y k p q Hp Hq.
  - cbn [Box.run_from nth_error] in Hq. destruct k; discriminate.
  - rewrite run_from_S in Hp, Hq.
    destruct (Visualizer.outOfRange st x y) eqn:Ho;
      [cbn [nth_error] in Hq; destruct k; discriminate|].
    destruct (Box.stagesFinite f h x y) eqn:Hs; cbn [negb] in Hp, Hq;
      [|cbn [nth_error] in Hq; destruct k; discriminate].
    destruct (isFinite (fst (Box.rk4_next f h x y))) eqn:Hx; cbn [negb orb] in Hp, Hq;
      [|cbn [nth_error] in Hq; destruct k; discriminate].
    destruct (isFinite (snd (Box.rk4_next f h x y))) eqn:Hy; cbn [negb] in Hp, Hq;
      [|cbn [nth_error] in Hq; destruct k; discriminate].
    destruct k as [|k].
    + cbn [nth_error] in Hp, Hq. injection Hp as <-. injection Hq as <-.
      cbn [fst snd]. repeat split; assumption.
    + cbn [nth_error] in Hp. change (nth_error (?a :: ?l) (S ?i)) with (nth_error l i) in Hq.
      destruct (Box.rk4_next f h x y) as [x' y']. cbn [fst snd] in Hp, Hq.
      exact (IH h x' y' k p q Hp Hq).
Qed.

Lemma last_default {A : Type} (a : A) (l : list A) (d d' : A) :
  last (a :: l) d = last (a :: l) d'.
Proof.
  revert a. induction l as [|b l IH]; intros a; [reflexivity|].
  change (last (b :: l) d = last (b :: l) d'). apply IH.
Qed.

Lemma run_from_out_of_range (n : nat) (h x y : float) :
  Visualizer.outOfRange st x y = true -> Box.run_from st n f h x y = [].
Proof.
  intros H. destruct n as [|n]; [reflexivity|]. now rewrite run_from_S, H.
Qed.

Lemma run_from_stops (n : nat) (h x y : float) :
  stops_at st f h (x, y) -> Box.run_from st n f h x y = [].
Proof.
  unfold stops_at. cbn [fst snd]. intros [H|H].
  - now apply run_from_out_of_range.
  - now apply run_from_stop.
Qed.

Lemma seeded_run_early_stop (n : nat) :
  forall h x y,
    (List.length ((x, y) :: Box.run_from st n f h x y) < n + 1)%nat ->
    stops_at st f h (last ((x, y) :: Box.run_from st n f h x y) (x, y)).
Proof.
  induction n as [|n IH]; intros h x y H.
  - cbn [Box.run_from List.length] in H. lia.
  - rewrite run_from_S in *. unfold stops_at.
    destruct (Visualizer.outOfRange st x y) eqn:Ho; [now left|].
    destruct (Box.stagesFinite f h x y) eqn:Hs; cbn [negb] in *;
      [|right; now left].
    destruct (isFinite (fst (Box.rk4_next f h x y))) eqn:Hx; cbn [negb orb] in *;
      [|right; right; now left].
    destruct (isFinite (snd (Box.rk4_next f h x y))) eqn:Hy; cbn [negb] in *;
      [|right; right; now right].
    destruct (Box.rk4_next f h x y) as [x' y']. cbn [fst snd] in *.
    change (last ((x, y) :: (x', y') :: ?l) (x, y)) with (last ((x', y') :: l) (x, y)).
    rewrite (last_default (x', y') _ (x, y) (x', y')).
    apply IH. cbn [List.length] in *.
    rewrite Nat.add_1_r in *. now apply Nat.succ_lt_mono.
Qed.

Lemma splice_length (s : float * float) (B F : list (float * float)) (n : nat) :
  (List.length B <= n)%nat -> (List.length F <= n)%nat ->
  (1 <= List.length (removelast (rev (s :: B)) ++ s :: F) <= 2 * n + 1)%nat.
Proof.
  intros HB HF. rewrite splice_trimmed, length_app, length_rev.
  cbn [List.length]. lia.
Qed.
End BoxRuns.

(** X9: in a trajectory returned by [generateSolutionCurve], every point
    that has a successor passed the range test and had finite stages, and
    its successor is the point one Runge-Kutta step of size 0.05 * direction
    leads to, with both coordinates finite. *)
Theorem generateSolutionCurve_steps (st : Visualizer.state)
        (f : float -> float -> float) (x0 y0 direction : float)
        (k : nat) (p q : float * float) :
  nth_error (Visualizer.generateSolutionCurve st f x0 y0 direction) k = Some p ->
  nth_error (Visualizer.generateSolutionCurve st f x0 y0 direction) (S k) = Some q ->
  q = Box.rk4_next f (0.05 * direction) (fst p) (snd p)
  /\ isFinite (fst q) = true /\ isFinite (snd q) = true
  /\ Visualizer.outOfRange st (fst p) (snd p) = false
  /\ Box.stagesFinite f (0.05 * direction) (fst p) (snd p) = true.
Proof.
  rewrite generateSolutionCurve_run_from. apply seeded_run_chain.
Qed.

Lemma generateSolutionCurve_steps_witness :
  exists p q,
    nth_error (Visualizer.generateSolutionCurve Visualizer.initial default_slope 0 1 1) 3
    = Some p
    /\ nth_error (Visualizer.generateSolutionCurve Visualizer.initial default_slope 0 1 1) 4
       = Some q
    /\ q = Box.rk4_next default_slope (0.05 * 1) (fst p) (snd p).
Proof.
  do 2 eexists. split; [vm_compute; reflexivity|].
  split; [vm_compute; reflexivity|].
  match goal with
  | |- ?q = Box.rk4_next _ _ (fst ?p) _ =>
      apply (generateSolutionCurve_steps Visualizer.initial default_slope 0 1 1 3 p q)
  end; vm_compute; reflexivity.
Defined.

(** X10: a trajectory of [generateSolutionCurve] that has fewer than
    [maxSteps + 1] points was cut short for one of the reasons of the loop:
    its last point is out of range, or a stage or a coordinate of the step
    from its last point is not finite. *)
Theorem generateSolutionCurve_early_stop (st : Visualizer.state)
        (f : float -> float -> float) (x0 y0 direction : float) :
  (List.length (Visualizer.generateSolutionCurve st f x0 y0 direction)
   < Visualizer.maxSteps + 1)%nat ->
  stops_at st f (0.05 * direction)
           (last (Visualizer.generateSolutionCurve st f x0 y0 direction) (x0, y0)).
Proof.
  rewrite generateSolutionCurve_run_from. apply seeded_run_early_stop.
Qed.

Lemma generateSolutionCurve_early_stop_witness :
  stops_at Visualizer.initial default_slope (0.05 * 1)
           (last (Visualizer.generateSolutionCurve Visualizer.initial default_slope 0 1 1)
                 (0, 1)).
Proof.
  apply (generateSolutionCurve_early_stop Visualizer.initial default_slope 0 1 1).
  apply Nat.ltb_lt. vm_compute. reflexivity.
Defined.

(** X11: the trajectory of [generateSolutionCurve] is the seed alone exactly
    when the loop breaks at the seed: the seed is out of range, or a stage
    or a coordinate of the first step is not finite. *)
Theorem generateSolutionCurve_seed_alone (st : Visualizer.state)
        (f : float -> float -> float) (x0 y0 direction : float) :
  Visualizer.generateSolutionCurve st f x0 y0 direction = [(x0, y0)]
  <-> stops_at st f (0.05 * direction) (x0, y0).
Proof.
  rewrite generateSolutionCurve_run_from. split.
  - intros H.
    pose proof (seeded_run_early_stop st f Visualizer.maxSteps
                                      (0.05 * direction) x0 y0) as E.
    rewrite H in E. apply E. rewrite Nat.add_1_r.
    apply -> Nat.succ_lt_mono. apply Nat.lt_0_succ.
  - intros H. now rewrite run_from_stops.
Qed.

(** X12: the trajectory that [addSolutionCurve] stores for a click is never
    empty and has at most [2 * maxSteps + 1 = 401] points. *)
Theorem allPoints_length (st : Visualizer.state) (evaluate : evaluator)
        (x0 y0 : float) :
  (1 <= List.length (Visualizer.allPoints st evaluate x0 y0)
   <= 2 * Visualizer.maxSteps + 1)%nat
  /\ (2 * Visualizer.maxSteps + 1 = 401)%nat.
Proof.
  split; [|reflexivity].
  unfold Visualizer.allPoints. cbv zeta.
  rewrite !generateSolutionCurve_run_from.
  apply splice_length; apply run_from_length.
Qed.

Lemma generateSolutionCurve_seed_alone_witness :
  Visualizer.generateSolutionCurve Visualizer.initial default_slope 5 0 1 = [(5, 0)].
Proof.
  apply (proj2 (generateSolutionCurve_seed_alone
                  Visualizer.initial default_slope 5 0 1)).
  left. reflexivity.
Defined.

Lemma evaluator_skipped_iff_witness :
  calls (Visualizer.parseEquation ReferenceEvaluator.evaluate "dy/dx = -x/y" 2 0) = [].
Proof.
  apply (proj1 (evaluator_skipped_iff ReferenceEvaluator.evaluate
                                      "dy/dx = -x/y" 2 0)).
  left. split; [reflexivity|]. now exists "-x"%string, EmptyString.
Defined.

(** ** Degenerate ranges of the field *)

Lemma axis_stuck (hi step v : float) :
  (v <=? hi) = true -> v + step = v ->
  forall fuel, axis fuel hi step v = None.
Proof.
  intros Hv Hs fuel. induction fuel as [|fuel IH]; [reflexivity|].
  cbn [axis]. now rewrite Hv, Hs, IH.
Qed.

(** X13: when the lower bound of the x range exceeds the upper one (or a
    bound is not a number), [drawSlopeField] draws no segment; when the x
    range is not empty but the step is absorbed at its lower bound (the two
    bounds are equal, so that the step is 0), the outer loop never advances
    and the sampling does not terminate. *)
Theorem drawSlopeField_degenerate (st : Visualizer.state) (evaluate : evaluator) :
  ((fst (Visualizer.xRange st) <=? snd (Visualizer.xRange st)) = false ->
   forall fuel, Visualizer.drawSlopeField st evaluate (S fuel) = Some [])
  /\ ((fst (Visualizer.xRange st) <=? snd (Visualizer.xRange st)) = true ->
      fst (Visualizer.xRange st) + Visualizer.stepX st = fst (Visualizer.xRange st) ->
      forall fuel, Visualizer.drawSlopeField st evaluate fuel = None).
Proof.
  split.
  - intros H fuel. rewrite drawSlopeField_grid. cbn [axis]. now rewrite H.
  - intros H Hs fuel. rewrite drawSlopeField_grid.
    now rewrite (axis_stuck _ _ _ H Hs).
Qed.

Lemma drawSlopeField_degenerate_witness :
  Visualizer.drawSlopeField
    (Visualizer.mkState "dy/dx = x + y" (4, -4) (-3, 3) 20 [] 0)
    ReferenceEvaluator.evaluate 1 = Some []
  /\ Visualizer.drawSlopeField
       (Visualizer.mkState "dy/dx = x + y" (1, 1) (-3, 3) 20 [] 0)
       ReferenceEvaluator.evaluate 50 = None.
Proof.
  split.
  - apply (proj1 (drawSlopeField_degenerate
                    (Visualizer.mkState "dy/dx = x + y" (4, -4) (-3, 3) 20 [] 0)
                    ReferenceEvaluator.evaluate)).
    reflexivity.
  - apply (proj2 (drawSlopeField_degenerate
                    (Visualizer.mkState "dy/dx = x + y" (1, 1) (-3, 3) 20 [] 0)
                    ReferenceEvaluator.evaluate)); reflexivity.
Defined.

(** ** The collection of curves *)

Section Curves.
Variable evaluate : evaluator.

Lemma sorted_ids_snoc (l : list Visualizer.curve) (c : Visualizer.curve) :
  StronglySorted (fun a b => (Visualizer.id a < Visualizer.id b)%nat) l ->
  Forall (fun a => (Visualizer.id a < Visualizer.id c)%nat) l ->
  StronglySorted (fun a b => (Visualizer.id a < Visualizer.id b)%nat) (l ++ [c]).
Proof.
  induction 1 as [|a l Hs IH Ha]; intros Hc; cbn [app].
  - repeat constructor.
  - inversion Hc as [|? ? Hac Hl]; subst. constructor; [now apply IH|].
    apply Forall_app. split; [exact Ha|]. now constructor.
Qed.

Lemma sorted_ids_filter (keep : Visualizer.curve -> bool) (l : list Visualizer.curve) :
  StronglySorted (fun a b => (Visualizer.id a < Visualizer.id b)%nat) l ->
  StronglySorted (fun a b => (Visualizer.id a < Visualizer.id b)%nat) (filter keep l).
Proof.
  induction 1 as [|a l Hs IH Ha]; cbn [filter]; [constructor|].
  destruct (keep a); [|exact IH].
  constructor; [exact IH|].
  rewrite Forall_forall in *. intros b Hb. apply filter_In in Hb. now apply Ha.
Qed.

Lemma sorted_ids_NoDup (l : list Visualizer.curve) :
  StronglySorted (fun a b => (Visualizer.id a < Visualizer.id b)%nat) l ->
  NoDup (map Visualizer.id l).
Proof.
  induction 1 as [|a l Hs IH Ha]; cbn [map]; constructor; [|exact IH].
  intros Hin. apply in_map_iff in Hin. destruct Hin as (b & Hb & Hin).
  rewrite Forall_forall in Ha. specialize (Ha b Hin). lia.
Qed.

Lemma perform_ids (st : Visualizer.state) (a : Visualizer.action) :
  ids_fresh st ->
  ids_fresh (Visualizer.perform evaluate st a)
  /\ Visualizer.curveIdCounter (Visualizer.perform evaluate st a)
     = (Visualizer.curveIdCounter st + clicks [a])%nat.
Proof.
  intros [Hs Hb]. destruct a as [x0 y0|curveId| |p|e xr yr d];
    cbn [Visualizer.perform clicks]; unfold ids_fresh;
    cbn [Visualizer.addSolutionCurve Visualizer.removeCurve
         Visualizer.clearSolutionCurves Visualizer.loadPreset
         Visualizer.solutionCurves Visualizer.curveIdCounter].
  - split; [split|symmetry; apply Nat.add_1_r].
    + apply sorted_ids_snoc; [exact Hs|exact Hb].
    + apply Forall_app. split.
      * eapply Forall_impl; [|exact Hb]. intros c Hc. now apply Nat.lt_lt_succ_r.
      * constructor; [apply Nat.lt_succ_diag_r|constructor].
  - split; [split|symmetry; apply Nat.add_0_r].
    + now apply sorted_ids_filter.
    + rewrite Forall_forall in *. intros c Hc. apply filter_In in Hc. now apply Hb.
  - split; [split; constructor|symmetry; apply Nat.add_0_r].
  - split; [split; constructor|symmetry; apply Nat.add_0_r].
  - split; [now split|symmetry; apply Nat.add_0_r].
Qed.

Lemma clicks_app (l1 l2 : list Visualizer.action) :
  clicks (l1 ++ l2) = (clicks l1 + clicks l2)%nat.
Proof.
  induction l1 as [|a l1 IH]; [reflexivity|].
  destruct a; cbn [app clicks]; now rewrite IH.
Qed.

Lemma session_ids (actions : list Visualizer.action) :
  forall st,
    ids_fresh st ->
    ids_fresh (Visualizer.session evaluate actions st)
    /\ Visualizer.curveIdCounter (Visualizer.session evaluate actions st)
       = (Visualizer.curveIdCounter st + clicks actions)%nat.
Proof.
  unfold Visualizer.session.
  induction actions as [|a actions IH]; intros st Hst; cbn [fold_left].
  - split; [exact Hst|]. cbn [clicks]. now rewrite Nat.add_0_r.
  - destruct (perform_ids st a Hst) as [H1 H2].
    destruct (IH _ H1) as [H3 H4]. split; [exact H3|].
    rewrite H4, H2. change (a :: actions) with ([a] ++ actions).
    now rewrite clicks_app, Nat.add_assoc.
Qed.

(** X14: after any sequence of clicks, removals, clearings, loads of presets
    and edits of the inputs, started from the component as mounted, the
    counter of identifiers is the number of clicks made so far, the
    identifiers of the curves on display are strictly increasing along the
    list, pairwise distinct and all below the counter; so a click that
    follows gets the number of earlier clicks as its identifier, whatever
    was removed in between: no identifier is ever given twice. *)
Theorem curve_ids_never_reused (actions : list Visualizer.action) (x0 y0 : float) :
  let st := Visualizer.session evaluate actions Visualizer.initial in
  Visualizer.curveIdCounter st = clicks actions
  /\ ids_fresh st
  /\ NoDup (map Visualizer.id (Visualizer.solutionCurves st))
  /\ exists c,
      Visualizer.solutionCurves
        (Visualizer.session evaluate (actions ++ [Visualizer.Click x0 y0])
                            Visualizer.initial)
      = Visualizer.solutionCurves st ++ [c]
      /\ Visualizer.id c = clicks actions
      /\ Visualizer.points c = Visualizer.allPoints st evaluate x0 y0.
Proof.
  intros st.
  assert (H0 : ids_fresh Visualizer.initial) by (split; constructor).
  destruct (session_ids actions _ H0) as [H1 H2]. fold st in H1, H2.
  cbn [Visualizer.initial Visualizer.curveIdCounter Nat.add] in H2.
  repeat split; try assumption; try apply H1.
  - apply sorted_ids_NoDup, H1.
  - unfold Visualizer.session. rewrite fold_left_app. cbn [fold_left].
    fold (Visualizer.session evaluate actions Visualizer.initial). fold st.
    cbn [Visualizer.perform Visualizer.addSolutionCurve Visualizer.solutionCurves].
    eexists. split; [reflexivity|]. cbn [Visualizer.id Visualizer.points].
    split; [exact H2|reflexivity].
Qed.
End Curves.

Lemma filter_all {A : Type} (keep : A -> bool) (l : list A) :
  (forall a, In a l -> keep a = true) -> filter keep l = l.
Proof.
  induction l as [|a l IH]; intros H; [reflexivity|].
  cbn [filter]. rewrite (H a (or_introl eq_refl)). f_equal.
  apply IH. intros b Hb. apply H. now right.
Qed.

Lemma keep_other_ids (curveId : nat) (l : list Visualizer.curve) :
  ~ In curveId (map Visualizer.id l) ->
  filter (fun c => negb (Nat.eqb (Visualizer.id c) curveId)) l = l.
Proof.
  intros H. apply filter_all. intros c Hc.
  apply negb_true_iff, Nat.eqb_neq. intros E. apply H.
  rewrite <- E. now apply in_map.
Qed.

(** X15: [removeCurve] touches nothing but the list of curves (the
    equation, the two ranges, the grid density and the identifier counter
    are as before); an
    identifier that no curve bears leaves the state as it is; and when the
    identifiers on display are pairwise distinct (X14), removing the
    identifier of a curve takes exactly that curve out of the list and keeps
    the others in their order. *)
Theorem removeCurve_effect (st : Visualizer.state) (curveId : nat) :
  ((forall c, In c (Visualizer.solutionCurves st) -> Visualizer.id c <> curveId) ->
   Visualizer.removeCurve st curveId = st)
  /\ (forall l1 c l2,
         NoDup (map Visualizer.id (Visualizer.solutionCurves st)) ->
         Visualizer.solutionCurves st = l1 ++ c :: l2 ->
         Visualizer.id c = curveId ->
         Visualizer.solutionCurves (Visualizer.removeCurve st curveId) = l1 ++ l2)
  /\ Visualizer.equation (Visualizer.removeCurve st curveId) = Visualizer.equation st
  /\ Visualizer.xRange (Visualizer.removeCurve st curveId) = Visualizer.xRange st
  /\ Visualizer.yRange (Visualizer.removeCurve st curveId) = Visualizer.yRange st
  /\ Visualizer.gridDensity (Visualizer.removeCurve st curveId)
     = Visualizer.gridDensity st
  /\ Visualizer.curveIdCounter (Visualizer.removeCurve st curveId)
     = Visualizer.curveIdCounter st.
Proof.
  split; [|split; [|repeat split]].
  - intros H. destruct st as [e xr yr d curves counter].
    unfold Visualizer.removeCurve. cbn [Visualizer.equation Visualizer.xRange
      Visualizer.yRange Visualizer.gridDensity Visualizer.solutionCurves
      Visualizer.curveIdCounter] in *.
    f_equal. apply filter_all. intros c Hc.
    apply negb_true_iff, Nat.eqb_neq. now apply H.
  - intros l1 c l2 Hn E Hc. unfold Visualizer.removeCurve.
    cbn [Visualizer.solutionCurves]. rewrite E in *.
    rewrite map_app in Hn. cbn [map] in Hn.
    pose proof (NoDup_remove_2 _ _ _ Hn) as Hout.
    rewrite Hc in Hout.
    rewrite filter_app. cbn [filter]. rewrite Hc, Nat.eqb_refl. cbn [negb].
    rewrite !keep_other_ids; [reflexivity| |];
      intros Hin; apply Hout, in_or_app; [now right|now left].
Qed.

Lemma removeCurve_effect_witness :
  Visualizer.removeCurve Visualizer.initial 7 = Visualizer.initial
  /\ Visualizer.solutionCurves
       (Visualizer.removeCurve
          (Visualizer.mkState "dy/dx = x + y" (-4, 4) (-3, 3) 20
             [Visualizer.mkCurve 0 [(0, 1)] "#e74c3c";
              Visualizer.mkCurve 2 [(1, 1)] "#f39c12"] 3) 0)
     = [] ++ [Visualizer.mkCurve 2 [(1, 1)] "#f39c12"].
Proof.
  split.
  - apply (proj1 (removeCurve_effect Visualizer.initial 7)). intros c [].
  - apply (proj1 (proj2 (removeCurve_effect _ 0))
             [] (Visualizer.mkCurve 0 [(0, 1)] "#e74c3c")
             [Visualizer.mkCurve 2 [(1, 1)] "#f39c12"]);
      [|reflexivity|reflexivity].
    cbn [map Visualizer.solutionCurves Visualizer.id].
    constructor; [intros [H|[]]; discriminate|].
    constructor; [intros []|constructor].
Defined.

Lemma palette_neighbours (r : nat) :
  (r < 6)%nat ->
  In (nth r Visualizer.colors ""%string) Visualizer.colors
  /\ nth r Visualizer.colors ""%string
     <> nth ((r + 1) mod 6) Visualizer.colors ""%string.
Proof.
  intros H.
  do 6 (destruct r as [|r];
        [split; [cbn; tauto|cbn; discriminate]|]).
  lia.
Qed.

(** X16: the colour given to a new curve is always one of the six of the
    palette, and two clicks in a row never get the same colour. *)
Theorem consecutive_clicks_differ_in_colour
        (st : Visualizer.state) (evaluate : evaluator) (x0 y0 x1 y1 : float) :
  exists c1 c2,
    Visualizer.solutionCurves
      (Visualizer.addSolutionCurve
         (Visualizer.addSolutionCurve st evaluate x0 y0) evaluate x1 y1)
    = Visualizer.solutionCurves st ++ [c1; c2]
    /\ In (Visualizer.color c1) Visualizer.colors
    /\ In (Visualizer.color c2) Visualizer.colors
    /\ Visualizer.color c1 <> Visualizer.color c2.
Proof.
  unfold Visualizer.addSolutionCurve.
  cbn [Visualizer.solutionCurves Visualizer.curveIdCounter]. cbv zeta.
  change (List.length Visualizer.colors) with 6%nat.
  rewrite length_app. cbn [List.length].
  set (n := List.length (Visualizer.solutionCurves st)).
  assert (Hr : (n mod 6 < 6)%nat) by (apply Nat.mod_upper_bound; discriminate).
  assert (Hr' : ((n + 1) mod 6 < 6)%nat) by (apply Nat.mod_upper_bound; discriminate).
  assert (E : ((n + 1) mod 6 = (n mod 6 + 1) mod 6)%nat)
    by (symmetry; apply Nat.Div0.add_mod_idemp_l).
  eexists. eexists. split; [rewrite <- app_assoc; reflexivity|].
  cbn [Visualizer.color].
  split; [apply (palette_neighbours _ Hr)|].
  split; [apply (palette_neighbours _ Hr')|].
  rewrite E. apply (palette_neighbours _ Hr).
Qed.

(** ** The two compilers side by side *)

(** X17: wherever the slope computed by the visualisation closure is not the
    sentinel 0, it is the number that the solver closure returns for the same
    equation at the same point, and it is finite. *)
Theorem slopes_agree (evaluate : evaluator) (eqStr : string) (x y : float) :
  (Visualizer.compiled evaluate eqStr x y = 0
   \/ outcome (Solver.parseEquation evaluate eqStr x y)
      = Normal (Visualizer.compiled evaluate eqStr x y))
  /\ isFinite (Visualizer.compiled evaluate eqStr x y) = true.
Proof.
  split; [|apply compiled_isFinite].
  unfold Visualizer.compiled, Visualizer.parseEquation, Solver.parseEquation.
  cbv zeta.
  destruct ((Math_abs y <? 1e-10) && _); [now left|].
  destruct ((Math_abs x <? 1e-10) && _); [now left|].
  unfold outcome. cbn [snd].
  destruct (evaluate (processedEq eqStr) x y) as [r|e]; [|now left].
  destruct (isFinite r); [now right|now left].
Qed.

(** ** Abscissas of a bounded-box run *)

Lemma run_from_abscissas (st : Visualizer.state) (f : float -> float -> float)
      (n : nat) :
  forall h x y,
    map fst (Box.run_from st n f h x y)
    = map (fun k => add_n k h x)
          (seq 1 (List.length (Box.run_from st n f h x y))).
Proof.
  induction n as [|n IH]; intros h x y; [reflexivity|].
  rewrite run_from_S.
  destruct (Visualizer.outOfRange st x y); [reflexivity|].
  destruct (negb (Box.stagesFinite f h x y)); [reflexivity|].
  destruct (negb _ || negb _); [reflexivity|].
  cbn [map List.length seq]. f_equal.
  rewrite IH, <- (seq_shift _ 1), map_map.
  apply map_ext. intros k. apply add_n_shift.
Qed.

Lemma seeded_run_abscissas (st : Visualizer.state) (f : float -> float -> float)
      (n : nat) (h x y : float) :
  map fst ((x, y) :: Box.run_from st n f h x y)
  = map (fun k => add_n k h x)
        (seq 0 (List.length ((x, y) :: Box.run_from st n f h x y))).
Proof.
  cbn [map List.length seq fst]. f_equal. apply run_from_abscissas.
Qed.

(** X18: the abscissas of a trajectory of [generateSolutionCurve] are x0,
    x0 + h, (x0 + h) + h, ... with h = 0.05 * direction: they depend on the
    seed and the direction only, not on the equation. *)
Theorem generateSolutionCurve_abscissas (st : Visualizer.state)
        (f : float -> float -> float) (x0 y0 direction : float) :
  map fst (Visualizer.generateSolutionCurve st f x0 y0 direction)
  = map (fun k => add_n k (0.05 * direction) x0)
        (seq 0 (List.length (Visualizer.generateSolutionCurve st f x0 y0 direction))).
Proof.
  rewrite generateSolutionCurve_run_from. apply seeded_run_abscissas.
Qed.
